(** * Live chat server: a shallow embedding of the Socket.IO handlers

    The server is one Node.js file (Express routes plus the Socket.IO
    [connection] handler) over three Mongoose models: [User], [Room] and
    [Message].  This development embeds the handlers as functions in a
    small state-output-exception monad and proves properties of the room
    directory, the message log and the room broadcasts.

    Modelling conventions.
    - A JavaScript string is the list of its code units; the model has the
      code units below 256, so [trim] knows the seven white space characters
      of that range.
    - A value sent by a client is a [JsValue]: a primitive or an array of
      primitives.  Numbers are the safe integers.  Plain objects in the position
      of a room name are left out of the model; the two events that
      destructure an object receive the values of the destructured
      properties.
    - Every [async] handler runs without interleaving with another one.
    - A handler that throws leaves the effects it had before the throw. *)

From Stdlib Require Import List String Ascii ZArith NArith Bool Lia DecimalString.
From Stdlib Require Import Sorted Permutation.
Import ListNotations.
Open Scope string_scope.
Open Scope list_scope.

Set Implicit Arguments.

(** ** JavaScript values *)

Module Js.

(** [Number.MAX_SAFE_INTEGER] *)
Definition maxSafeInteger : Z := 9007199254740991.

(** The numbers of the model: the integers between [-maxSafeInteger] and
    [maxSafeInteger], each of which is a number of JavaScript and is printed
    by it as its decimal digits. *)
Record SafeInt : Type := mkSafeInt {
  intValue : Z;
  intSafe : (Z.abs intValue <=? maxSafeInteger)%Z = true
}.

(** Primitive values that a JSON packet can carry. *)
Inductive Atom : Type :=
| AUndefined
| ANull
| ABool (b : bool)
| ANum (n : SafeInt)
| AStr (s : string).

Inductive JsValue : Type :=
| JAtom (a : Atom)
| JArr (elems : list Atom).

Definition JUndefined : JsValue := JAtom AUndefined.
Definition JStr (s : string) : JsValue := JAtom (AStr s).

(** [!!v] *)
Definition truthyAtom (a : Atom) : bool :=
  match a with
  | AUndefined | ANull => false
  | ABool b => b
  | ANum n => negb (intValue n =? 0)%Z
  | AStr s => negb (s =? "")
  end.

Definition truthy (v : JsValue) : bool :=
  match v with
  | JAtom a => truthyAtom a
  | JArr _ => true
  end.

(** Key equality of a JavaScript [Map] or [Set] on primitives. *)
Definition sameValueZero (a b : Atom) : bool :=
  match a, b with
  | AUndefined, AUndefined => true
  | ANull, ANull => true
  | ABool x, ABool y => Bool.eqb x y
  | ANum x, ANum y => (intValue x =? intValue y)%Z
  | AStr x, AStr y => (x =? y)
  | _, _ => false
  end.

(** White space and line terminators among the code units below 256:
    TAB, LF, VT, FF, CR, SPACE and NBSP. *)
Definition isWhiteSpace (c : ascii) : bool :=
  let n := nat_of_ascii c in
  ((9 <=? n) && (n <=? 13) || (n =? 32) || (n =? 160))%nat.

Fixpoint trimStart (s : string) : string :=
  match s with
  | EmptyString => EmptyString
  | String c s' => if isWhiteSpace c then trimStart s' else s
  end.

Fixpoint trimEnd (s : string) : string :=
  match s with
  | EmptyString => EmptyString
  | String c s' =>
      match trimEnd s' with
      | EmptyString => if isWhiteSpace c then EmptyString else String c EmptyString
      | t => String c t
      end
  end.

(** [String.prototype.trim] *)
Definition trim (s : string) : string := trimEnd (trimStart s).

(** [Number.prototype.toString], on a safe integer, and
    [Boolean.prototype.toString]. *)
Definition numberToString (n : SafeInt) : string :=
  NilZero.string_of_int (Z.to_int (intValue n)).
Definition booleanToString (b : bool) : string := if b then "true" else "false".

End Js.
Import Js.

(** ** The Mongoose documents *)

(** An [ObjectId]; the store hands out fresh ones. *)
Definition ObjectId : Type := N.

Module User.
(** [userSchema]: username unique and required, password required. *)
Record t : Type := mk {
  _id : ObjectId;
  username : string;
  password : string;
  avatar : option string
}.
End User.

Module Room.
(** [roomSchema]: name unique and required, createdBy required. *)
Record t : Type := mk {
  _id : ObjectId;
  name : string;
  createdAt : N;
  createdBy : string
}.
End Room.

Module Message.
(** [messageSchema]: room, user and text required; seenBy defaults to []. *)
Record t : Type := mk {
  _id : ObjectId;
  room : string;
  user : string;
  avatar : option string;
  text : string;
  time : N;
  seenBy : list string
}.

Definition withSeenBy (m : t) (l : list string) : t :=
  mk (_id m) (room m) (user m) (avatar m) (text m) (time m) l.
End Message.

(** The argument of [findById], by what Mongoose's cast to [ObjectId] makes
    of it: [undefined] and [null] look up nothing, a castable value is the
    id it casts to, any other value makes the query reject. *)
Inductive IdArg : Type :=
| IdNone
| IdOf (oid : ObjectId)
| IdBad.

(** ** The server state *)

Definition SocketId : Type := string.

(** A connected socket: the profile attached by the connection handler
    ([None] while no handler is registered) and the rooms it is in. *)
Record Socket : Type := mkSocket {
  sid : SocketId;
  suser : option User.t;
  srooms : list Atom
}.

Record State : Type := mkState {
  Users : list User.t;
  Rooms : list Room.t;
  Messages : list Message.t;
  nextId : ObjectId;
  sockets : list Socket
}.

Definition initial : State := mkState [] [] [] 0%N [].

(** ** What the server sends *)

Inductive OutEvent : Type :=
| roomList (rooms : list Room.t)
| history (msgs : list Message.t)
| message (m : Message.t)
| messageDeleted (messageId : IdArg)
| typing (username : string)
| stopTyping
| seenUpdate (id : IdArg) (seenBy : list string).

Inductive HttpResponse : Type :=
| redirect (url : string)
| renderIndex (user : User.t) (rooms : list Room.t)
| renderSignup (error : option string).

Inductive Output : Type :=
| Emit (to : SocketId) (ev : OutEvent)
| Respond (r : HttpResponse).

(** ** The handler monad: state, output and exceptions *)

Inductive Exn : Type :=
| TypeError
| CastError
| ValidationError
| DuplicateKey.

Inductive Res (A : Type) : Type :=
| Ok (a : A)
| Throw (e : Exn).
Arguments Throw {A} e.

Definition M (A : Type) : Type := State -> Res A * State * list Output.

Definition ret {A} (a : A) : M A := fun st => (Ok a, st, []).

Definition bind {A B} (c : M A) (k : A -> M B) : M B :=
  fun st =>
    match c st with
    | (Ok a, st1, o1) =>
        match k a st1 with
        | (r, st2, o2) => (r, st2, o1 ++ o2)
        end
    | (Throw e, st1, o1) => (Throw e, st1, o1)
    end.

Definition throw {A} (e : Exn) : M A := fun st => (Throw e, st, []).
Definition get : M State := fun st => (Ok st, st, []).
Definition put (st : State) : M unit := fun _ => (Ok tt, st, []).
Definition tell (o : list Output) : M unit := fun st => (Ok tt, st, o).

Declare Scope js_scope.
Delimit Scope js_scope with js.
Notation "x <- c ;; k" := (bind c (fun x => k))
  (at level 61, c at next level, right associativity) : js_scope.
Notation "c ;; k" := (bind c (fun _ => k))
  (at level 61, right associativity) : js_scope.
Open Scope js_scope.

Definition result {A} (r : Res A * State * list Output) : Res A := fst (fst r).
Definition post {A} (r : Res A * State * list Output) : State := snd (fst r).
Definition out {A} (r : Res A * State * list Output) : list Output := snd r.

(** ** Mongoose *)

Definition setUsers (st : State) (us : list User.t) : State :=
  mkState us (Rooms st) (Messages st) (nextId st) (sockets st).
Definition setRooms (st : State) (rs : list Room.t) : State :=
  mkState (Users st) rs (Messages st) (nextId st) (sockets st).
Definition setMessages (st : State) (ms : list Message.t) : State :=
  mkState (Users st) (Rooms st) ms (nextId st) (sockets st).
Definition setSockets (st : State) (ss : list Socket) : State :=
  mkState (Users st) (Rooms st) (Messages st) (nextId st) ss.
Definition bumpId (st : State) : State :=
  mkState (Users st) (Rooms st) (Messages st) (N.succ (nextId st)) (sockets st).

(** [.sort(field)], ascending; documents with equal keys keep their order. *)
Fixpoint insertBy {A} (le : A -> A -> bool) (x : A) (l : list A) : list A :=
  match l with
  | [] => [x]
  | y :: l' => if le x y then x :: l else y :: insertBy le x l'
  end.

Definition sortBy {A} (le : A -> A -> bool) (l : list A) : list A :=
  fold_right (insertBy le) [] l.

(** What [deleteOne] and [updateOne] do to the first matching document. *)
Fixpoint removeFirst {A} (p : A -> bool) (l : list A) : list A :=
  match l with
  | [] => []
  | x :: l' => if p x then l' else x :: removeFirst p l'
  end.

Fixpoint replaceFirst {A} (p : A -> bool) (y : A) (l : list A) : list A :=
  match l with
  | [] => []
  | x :: l' => if p x then y :: l' else x :: replaceFirst p y l'
  end.

(** Mongoose's cast of a primitive to a [String] path; [undefined] and
    [null] are not cast. *)
Definition castString (a : Atom) : option string :=
  match a with
  | AStr s => Some s
  | ANum n => Some (numberToString n)
  | ABool b => Some (booleanToString b)
  | AUndefined | ANull => None
  end.

Definition castEq (a : Atom) (field : string) : bool :=
  match castString a with
  | Some s => s =? field
  | None => false
  end.

(** The filter [{ path: v }] on a required [String] path: [undefined] and
    [null] are sent as [null], which matches no stored document; an array is
    cast to [$in]. *)
Definition matchString (v : JsValue) (field : string) : bool :=
  match v with
  | JAtom a => castEq a field
  | JArr l => existsb (fun a => castEq a field) l
  end.

Definition User_findById (uid : ObjectId) : M (option User.t) :=
  st <- get ;;
  ret (find (fun u => (User._id u =? uid)%N) (Users st)).

Definition required (s : string) : bool := negb (s =? "").

(** [User.create({ username, password, avatar })] *)
Definition User_create (username password avatar : option string) : M User.t :=
  match username, password with
  | Some un, Some pw =>
      if required un && required pw then
        st <- get ;;
        if existsb (fun u => User.username u =? un) (Users st) then throw DuplicateKey
        else
          let u := User.mk (nextId st) un pw avatar in
          put (bumpId (setUsers st (Users st ++ [u]))) ;;
          ret u
      else throw ValidationError
  | _, _ => throw ValidationError
  end.

(** [Room.find().sort('name')] *)
Definition Room_find_sort_name : M (list Room.t) :=
  st <- get ;;
  ret (sortBy (fun a b => (Room.name a <=? Room.name b)%string) (Rooms st)).

(** [Room.exists({ name })], for a string [name] *)
Definition Room_exists (name : string) : M bool :=
  st <- get ;;
  ret (existsb (fun r => Room.name r =? name) (Rooms st)).

(** [Room.create({ name, createdBy })] *)
Definition Room_create (now : N) (name createdBy : string) : M Room.t :=
  if required name && required createdBy then
    st <- get ;;
    if existsb (fun r => Room.name r =? name) (Rooms st) then throw DuplicateKey
    else
      let r := Room.mk (nextId st) name now createdBy in
      put (bumpId (setRooms st (Rooms st ++ [r]))) ;;
      ret r
  else throw ValidationError.

(** [Room.findOne({ name })] *)
Definition Room_findOne (name : JsValue) : M (option Room.t) :=
  st <- get ;;
  ret (find (fun r => matchString name (Room.name r)) (Rooms st)).

(** [room.deleteOne()] *)
Definition Room_deleteOne (r : Room.t) : M unit :=
  st <- get ;;
  put (setRooms st (removeFirst (fun x => (Room._id x =? Room._id r)%N) (Rooms st))).

(** [Message.find({ room }).sort('time')] *)
Definition Message_find_sort_time (room : JsValue) : M (list Message.t) :=
  st <- get ;;
  ret (sortBy (fun a b => (Message.time a <=? Message.time b)%N)
         (filter (fun m => matchString room (Message.room m)) (Messages st))).

(** [Message.create({ room, user, avatar, text })]: an array is not cast to
    a string, and a required string is not empty. *)
Definition Message_create (now : N) (room : JsValue) (user : string)
    (avatar : option string) (text : string) : M Message.t :=
  match room with
  | JAtom a =>
      match castString a with
      | Some r =>
          if required r && required user && required text then
            st <- get ;;
            let m := Message.mk (nextId st) r user avatar text now [] in
            put (bumpId (setMessages st (Messages st ++ [m]))) ;;
            ret m
          else throw ValidationError
      | None => throw ValidationError
      end
  | JArr _ => throw ValidationError
  end.

(** [Message.findById(messageId)] *)
Definition Message_findById (messageId : IdArg) : M (option Message.t) :=
  match messageId with
  | IdNone => ret None
  | IdOf oid =>
      st <- get ;;
      ret (find (fun m => (Message._id m =? oid)%N) (Messages st))
  | IdBad => throw CastError
  end.

(** [Message.deleteOne({ _id: messageId })]; the handler calls it after
    [findById] found the document. *)
Definition Message_deleteOne (messageId : IdArg) : M unit :=
  match messageId with
  | IdNone => ret tt
  | IdOf oid =>
      st <- get ;;
      put (setMessages st (removeFirst (fun m => (Message._id m =? oid)%N) (Messages st)))
  | IdBad => throw CastError
  end.

(** [m.save()] *)
Definition Message_save (m : Message.t) : M unit :=
  st <- get ;;
  put (setMessages st
         (replaceFirst (fun x => (Message._id x =? Message._id m)%N) m (Messages st))).

(** ** Socket.IO *)

(** The rooms named by the argument of [join] and [to]: one room, or the
    rooms of an array. *)
Definition targets (room : JsValue) : list Atom :=
  match room with
  | JAtom a => [a]
  | JArr l => l
  end.

Definition hasRoom (a : Atom) (rooms : list Atom) : bool :=
  existsb (sameValueZero a) rooms.

Definition addRoom (rooms : list Atom) (a : Atom) : list Atom :=
  if hasRoom a rooms then rooms else rooms ++ [a].

Definition updSocket (id : SocketId) (f : Socket -> Socket) (l : list Socket) : list Socket :=
  map (fun s => if sid s =? id then f s else s) l.

(** [socket.leaveAll()] *)
Definition socket_leaveAll (id : SocketId) : M unit :=
  st <- get ;;
  put (setSockets st (updSocket id (fun s => mkSocket (sid s) (suser s) []) (sockets st))).

(** [socket.join(room)] *)
Definition socket_join (id : SocketId) (room : JsValue) : M unit :=
  st <- get ;;
  put (setSockets st
         (updSocket id
            (fun s => mkSocket (sid s) (suser s) (fold_left addRoom (targets room) (srooms s)))
            (sockets st))).

(** [socket.disconnect()] *)
Definition socket_disconnect (id : SocketId) : M unit :=
  st <- get ;;
  put (setSockets st (filter (fun s => negb (sid s =? id)) (sockets st))).

(** The sockets a broadcast reaches: the members of one of the rooms (every
    socket when no room is named), each once.  [io.to] leaves out none;
    [socket.to] leaves out the members of the room named by the id of the
    sending socket, the room a socket is in from its connection until its
    [leaveAll].  The order among the recipients has no meaning. *)
Definition inRooms (rooms : list Atom) (s : Socket) : bool :=
  match rooms with
  | [] => true
  | _ => existsb (fun r => hasRoom r (srooms s)) rooms
  end.

Definition inExceptRoom (except : option SocketId) (s : Socket) : bool :=
  match except with
  | Some id => hasRoom (AStr id) (srooms s)
  | None => false
  end.

Definition recipients (rooms : list Atom) (except : option SocketId) (st : State) : list Socket :=
  filter (fun s => inRooms rooms s && negb (inExceptRoom except s)) (sockets st).

Definition emitAll (ev : OutEvent) (l : list Socket) : list Output :=
  map (fun s => Emit (sid s) ev) l.

(** [socket.emit(ev)] *)
Definition socket_emit (id : SocketId) (ev : OutEvent) : M unit :=
  tell [Emit id ev].

(** [io.emit(ev)] *)
Definition io_emit (ev : OutEvent) : M unit :=
  st <- get ;;
  tell (emitAll ev (sockets st)).

(** [io.to(room).emit(ev)] *)
Definition io_to_emit (room : JsValue) (ev : OutEvent) : M unit :=
  st <- get ;;
  tell (emitAll ev (recipients (targets room) None st)).

(** [socket.to(room).emit(ev)] *)
Definition socket_to_emit (id : SocketId) (room : JsValue) (ev : OutEvent) : M unit :=
  st <- get ;;
  tell (emitAll ev (recipients (targets room) (Some id) st)).

(** ** The Express routes *)

(** [try { c } catch { h }] *)
Definition try_catch {A} (c h : M A) : M A :=
  fun st =>
    match c st with
    | (Throw _, st1, o1) =>
        match h st1 with
        | (r, st2, o2) => (r, st2, o1 ++ o2)
        end
    | r => r
    end.

(** [app.post('/signup')] *)
Definition post_signup (username password avatar : option string) : M unit :=
  try_catch
    (User_create username password avatar ;;
     tell [Respond (redirect "/login?registered=1")])
    (tell [Respond (renderSignup (Some "Username already exists"))]).

(** [passport.deserializeUser]: the user of the session, if any. *)
Definition deserializeUser (uid : option ObjectId) : M (option User.t) :=
  match uid with
  | Some id => User_findById id
  | None => ret None
  end.

(** [app.get('/')] behind [ensureAuth] *)
Definition get_index (now : N) (uid : option ObjectId) : M unit :=
  requser <- deserializeUser uid ;;
  match requser with
  | None => tell [Respond (redirect "/login")]
  | Some user =>
      found <- Room_find_sort_name ;;
      rooms <- match found with
               | [] =>
                   lobby <- Room_create now "lobby" (User.username user) ;;
                   ret [lobby]
               | _ => ret found
               end ;;
      tell [Respond (renderIndex user rooms)]
  end.

(** ** The Socket.IO handlers *)

Definition setUser (id : SocketId) (u : User.t) : M unit :=
  st <- get ;;
  put (setSockets st (updSocket id (fun s => mkSocket (sid s) (Some u) (srooms s)) (sockets st))).

(** [io.on('connection')]: [uid] is [session.passport?.user].  Attaching
    the profile stands for registering the event handlers as well. *)
Definition on_connection (id : SocketId) (uid : option ObjectId) : M unit :=
  match uid with
  | None => socket_disconnect id
  | Some uid =>
      found <- User_findById uid ;;
      match found with
      | None => throw TypeError
      | Some u =>
          setUser id u ;;
          rooms <- Room_find_sort_name ;;
          socket_emit id (roomList rooms)
      end
  end.

(** [socket.on('newRoom')]: [name?.trim()] is [undefined] on a missing
    name, and only a string has a [trim] to call. *)
Definition on_newRoom (now : N) (user : User.t) (name : JsValue) : M unit :=
  match name with
  | JAtom AUndefined | JAtom ANull => ret tt
  | JAtom (AStr s) =>
      if trim s =? "" then ret tt
      else
        taken <- Room_exists s ;;
        if taken then ret tt
        else
          Room_create now s (User.username user) ;;
          rooms <- Room_find_sort_name ;;
          io_emit (roomList rooms)
  | _ => throw TypeError
  end.

(** [socket.on('deleteRoom')] *)
Definition on_deleteRoom (user : User.t) (name : JsValue) : M unit :=
  found <- Room_findOne name ;;
  match found with
  | Some room =>
      if Room.createdBy room =? User.username user then
        Room_deleteOne room ;;
        rooms <- Room_find_sort_name ;;
        io_emit (roomList rooms)
      else ret tt
  | None => ret tt
  end.

(** [socket.on('joinRoom')] *)
Definition on_joinRoom (id : SocketId) (room : JsValue) : M unit :=
  socket_leaveAll id ;;
  socket_join id room ;;
  msgs <- Message_find_sort_time room ;;
  socket_emit id (history msgs).

(** [socket.on('chatMessage')]: [None] is a payload that cannot be
    destructured ([undefined] or [null]); otherwise the payload gives the
    values of its [room] and [text] properties. *)
Definition on_chatMessage (now : N) (user : User.t) (payload : option (JsValue * JsValue)) : M unit :=
  match payload with
  | None => throw TypeError
  | Some (room, text) =>
      if negb (truthy room) then ret tt
      else
        match text with
        | JAtom (AStr t) =>
            if trim t =? "" then ret tt
            else
              m <- Message_create now room (User.username user) (User.avatar user) t ;;
              io_to_emit room (message m)
        | _ => throw TypeError
        end
  end.

(** [socket.on('deleteMessage')] *)
Definition on_deleteMessage (user : User.t) (messageId : IdArg) : M unit :=
  found <- Message_findById messageId ;;
  match found with
  | Some m =>
      if Message.user m =? User.username user then
        Message_deleteOne messageId ;;
        io_to_emit (JStr (Message.room m)) (messageDeleted messageId)
      else ret tt
  | None => ret tt
  end.

(** [socket.on('typing')] *)
Definition on_typing (id : SocketId) (user : User.t) (room : JsValue) : M unit :=
  if negb (truthy room) then ret tt
  else socket_to_emit id room (typing (User.username user)).

(** [socket.on('stopTyping')] *)
Definition on_stopTyping (id : SocketId) (room : JsValue) : M unit :=
  if negb (truthy room) then ret tt
  else socket_to_emit id room stopTyping.

(** [socket.on('seen')]: [None] is a payload that cannot be destructured. *)
Definition on_seen (user : User.t) (payload : option IdArg) : M unit :=
  match payload with
  | None => throw TypeError
  | Some messageId =>
      found <- Message_findById messageId ;;
      match found with
      | Some m =>
          if existsb (String.eqb (User.username user)) (Message.seenBy m) then ret tt
          else
            let m' := Message.withSeenBy m (Message.seenBy m ++ [User.username user]) in
            Message_save m' ;;
            io_to_emit (JStr (Message.room m')) (seenUpdate messageId (Message.seenBy m'))
      | None => ret tt
      end
  end.

(** ** The server as a transition system *)

Inductive ClientEvent : Type :=
| newRoom (name : JsValue)
| deleteRoom (name : JsValue)
| joinRoom (room : JsValue)
| chatMessage (payload : option (JsValue * JsValue))
| deleteMessage (messageId : IdArg)
| typingEv (room : JsValue)
| stopTypingEv (room : JsValue)
| seen (payload : option IdArg).

Inductive Input : Type :=
| Signup (username password avatar : option string)
| GetIndex (uid : option ObjectId)
| Connect (id : SocketId) (uid : option ObjectId)
| Recv (id : SocketId) (ev : ClientEvent)
| Disconnect (id : SocketId).

Definition dispatch (now : N) (id : SocketId) (user : User.t) (ev : ClientEvent) : M unit :=
  match ev with
  | newRoom name => on_newRoom now user name
  | deleteRoom name => on_deleteRoom user name
  | joinRoom room => on_joinRoom id room
  | chatMessage payload => on_chatMessage now user payload
  | deleteMessage messageId => on_deleteMessage user messageId
  | typingEv room => on_typing id user room
  | stopTypingEv room => on_stopTyping id room
  | seen payload => on_seen user payload
  end.

Definition lookupSocket (id : SocketId) (st : State) : option Socket :=
  find (fun s => sid s =? id) (sockets st).

(** A new socket is in the room named by its own id.  Socket ids are fresh:
    a connection under a live id does not occur and changes nothing.  An
    event on a socket without handlers is dropped. *)
Definition step (now : N) (i : Input) : M unit :=
  match i with
  | Signup username password avatar => post_signup username password avatar
  | GetIndex uid => get_index now uid
  | Connect id uid =>
      st <- get ;;
      match lookupSocket id st with
      | Some _ => ret tt
      | None =>
          put (setSockets st (sockets st ++ [mkSocket id None [AStr id]])) ;;
          on_connection id uid
      end
  | Recv id ev =>
      st <- get ;;
      match lookupSocket id st with
      | Some s =>
          match suser s with
          | Some user => dispatch now id user ev
          | None => ret tt
          end
      | None => ret tt
      end
  | Disconnect id => socket_disconnect id
  end.

(** A run of the server: each input comes with the clock reading. *)
Definition run (st : State) (tr : list (N * Input)) : State :=
  fold_left (fun st ni => post (step (fst ni) (snd ni) st)) tr st.

Definition reachable (st : State) : Prop :=
  exists tr, st = run initial tr.

(** The rooms a socket is in, by its id. *)
Definition roomsOf (id : SocketId) (st : State) : list Atom :=
  match lookupSocket id st with
  | Some s => srooms s
  | None => []
  end.

Definition userOf (id : SocketId) (st : State) : option User.t :=
  match lookupSocket id st with
  | Some s => suser s
  | None => None
  end.

(** ** Vocabulary of the properties *)

(** What holds of every reachable state: usernames are not empty, socket
    ids and room names are unique, no room name is blank, message ids are
    unique and below the next id, and no [seenBy] repeats a name. *)
Record wf (st : State) : Prop := mkWf {
  wf_users : Forall (fun u => User.username u <> "") (Users st);
  wf_sockets : Forall (fun s => forall u, suser s = Some u -> User.username u <> "") (sockets st);
  wf_sids : NoDup (map sid (sockets st));
  wf_names : NoDup (map Room.name (Rooms st));
  wf_trim : Forall (fun r => trim (Room.name r) <> "") (Rooms st);
  wf_fresh : Forall (fun m => (Message._id m < nextId st)%N) (Messages st);
  wf_ids : NoDup (map Message._id (Messages st));
  wf_seen : Forall (fun m => NoDup (Message.seenBy m)) (Messages st)
}.

(** The argument of a [joinRoom] names at most one room. *)
Definition namesOneRoom (i : Input) : bool :=
  match i with
  | Recv _ (joinRoom room) => (List.length (targets room) <=? 1)%nat
  | _ => true
  end.

Definition singleRoom (st : State) : Prop :=
  Forall (fun s => (List.length (srooms s) <= 1)%nat) (sockets st).

(** The message of the log with a given id. *)
Definition byId (oid : ObjectId) (m : Message.t) : bool := (Message._id m =? oid)%N.

(** [Message.find({ room }).sort('time')] as a function of the log. *)
Definition historyOf (room : JsValue) (ms : list Message.t) : list Message.t :=
  sortBy (fun a b => (Message.time a <=? Message.time b)%N)
    (filter (fun m => matchString room (Message.room m)) ms).

(** Sample users, a sample message and sample runs: the users sign up and
    connect, join "general", and alice writes there. *)
Definition alice : User.t := User.mk 0%N "alice" "secret" None.
Definition bob : User.t := User.mk 1%N "bob" "hunter2" None.
Definition hi : Message.t := Message.mk 2%N "general" "alice" None " hi " 7%N [].

Definition run_alice_joined : list (N * Input) :=
  [ (1%N, Signup (Some "alice") (Some "secret") None);
    (2%N, Connect "s1" (Some 0%N));
    (3%N, Recv "s1" (joinRoom (JStr "general"))) ].

Definition run_alice_signed_up : list (N * Input) :=
  [ (1%N, Signup (Some "alice") (Some "secret") None) ].

Definition run_both_joined : list (N * Input) :=
  [ (1%N, Signup (Some "alice") (Some "secret") None);
    (2%N, Signup (Some "bob") (Some "hunter2") None);
    (3%N, Connect "s1" (Some 0%N));
    (4%N, Connect "s2" (Some 1%N));
    (5%N, Recv "s1" (joinRoom (JStr "general")));
    (6%N, Recv "s2" (joinRoom (JStr "general"))) ].

Definition run_alice_wrote : list (N * Input) :=
  [ (1%N, Signup (Some "alice") (Some "secret") None);
    (2%N, Signup (Some "bob") (Some "hunter2") None);
    (3%N, Connect "s1" (Some 0%N));
    (4%N, Connect "s2" (Some 1%N));
    (5%N, Recv "s1" (joinRoom (JStr "general")));
    (6%N, Recv "s2" (joinRoom (JStr "general")));
    (7%N, Recv "s1" (chatMessage (Some (JStr "general", JStr " hi ")))) ].

Definition run_general_created : list (N * Input) :=
  run_alice_wrote ++ [ (8%N, Recv "s1" (newRoom (JStr "general"))) ].

(** ** Passport: credentials and sessions *)

(** [userSchema.methods.verify] *)
Definition verify (this : User.t) (pwd : string) : bool :=
  User.password this =? pwd.

(** [User.findOne({ username })], for a string [username] *)
Definition User_findOne (username : string) : M (option User.t) :=
  st <- get ;;
  ret (find (fun u => User.username u =? username) (Users st)).

(** The verify callback of the [LocalStrategy], for the strings of the
    login form: [None] is [done(null, false)], [Some user] is
    [done(null, user)], and an error of the query is handed on. *)
Definition localStrategy (username password : string) : M (option User.t) :=
  found <- User_findOne username ;;
  match found with
  | None => ret None
  | Some user => if verify user password then ret (Some user) else ret None
  end.

(** [passport.serializeUser]: the session keeps the id of the user. *)
Definition serializeUser (u : User.t) : ObjectId := User._id u.

(** ** More vocabulary *)

(** Users have distinct names and distinct ids, below the next id. *)
Definition usersOk (st : State) : Prop :=
  NoDup (map User.username (Users st)) /\
  NoDup (map User._id (Users st)) /\
  Forall (fun u => (User._id u < nextId st)%N) (Users st).

(** A message as it was, but for names added at the end of [seenBy]. *)
Definition seenMore (m m' : Message.t) : Prop :=
  Message._id m' = Message._id m /\
  Message.room m' = Message.room m /\
  Message.user m' = Message.user m /\
  Message.avatar m' = Message.avatar m /\
  Message.text m' = Message.text m /\
  Message.time m' = Message.time m /\
  exists more, Message.seenBy m' = Message.seenBy m ++ more.

(** Rooms have distinct ids, below the next id. *)
Definition roomsOk (st : State) : Prop :=
  NoDup (map Room._id (Rooms st)) /\
  Forall (fun r => (Room._id r < nextId st)%N) (Rooms st).

(** The inputs that can change the rooms a socket is in: its connection,
    its disconnection and its own [joinRoom]. *)
Definition touches (id : SocketId) (i : Input) : bool :=
  match i with
  | Connect x _ => x =? id
  | Disconnect x => x =? id
  | Recv x (joinRoom _) => x =? id
  | _ => false
  end.

(** Ascending order of the room names and of the message times. *)
Definition byName (a b : Room.t) : Prop := (Room.name a <=? Room.name b)%string = true.
Definition byTime (a b : Message.t) : Prop := (Message.time a <=? Message.time b)%N = true.

(** * Properties *)

(** ** Lists, strings and the store primitives *)

Lemma required_true (s : string) : required s = true -> s <> "".
Proof.
  unfold required. intros H. apply String.eqb_neq.
  now apply negb_true_iff.
Qed.

Lemma required_of_neq (s : string) : s <> "" -> required s = true.
Proof.
  unfold required. intros H. apply negb_true_iff. now apply String.eqb_neq.
Qed.

Lemma existsb_name_false {A} (f : A -> string) (x : string) (l : list A) :
  existsb (fun a => f a =? x) l = false -> ~ In x (map f l).
Proof.
  induction l as [|a l IH]; simpl; intros H; [tauto|].
  apply orb_false_iff in H. destruct H as [Ha Hl].
  intros [E|I]; [|now apply IH].
  apply String.eqb_neq in Ha. congruence.
Qed.

Lemma existsb_name_of_notin {A} (f : A -> string) (x : string) (l : list A) :
  ~ In x (map f l) -> existsb (fun a => f a =? x) l = false.
Proof.
  induction l as [|a l IH]; simpl; intros H; [reflexivity|].
  apply orb_false_iff. split.
  - apply String.eqb_neq. tauto.
  - apply IH. tauto.
Qed.

Lemma existsb_eqb_false (x : string) (l : list string) :
  existsb (String.eqb x) l = false -> ~ In x l.
Proof.
  induction l as [|a l IH]; simpl; intros H; [tauto|].
  apply orb_false_iff in H. destruct H as [Ha Hl].
  apply String.eqb_neq in Ha.
  intros [E|I]; [congruence|now apply IH].
Qed.

Lemma existsb_eqb_true (x : string) (l : list string) :
  existsb (String.eqb x) l = true -> In x l.
Proof.
  intros H. apply existsb_exists in H. destruct H as [y [I E]].
  apply String.eqb_eq in E. now subst.
Qed.

Lemma NoDup_snoc {A} (l : list A) (x : A) :
  NoDup l -> ~ In x l -> NoDup (l ++ [x]).
Proof.
  induction 1 as [|a l Ha Hl IH]; simpl; intros Hx.
  - constructor; [tauto|constructor].
  - constructor.
    + rewrite in_app_iff. simpl. intros [I|[E|[]]]; [tauto|subst; tauto].
    + apply IH. tauto.
Qed.

Lemma removeFirst_incl {A} (p : A -> bool) (l : list A) :
  incl (removeFirst p l) l.
Proof.
  induction l as [|x l IH]; simpl; [apply incl_refl|].
  destruct (p x).
  - apply incl_tl, incl_refl.
  - intros y [E|I]; [now left|right; now apply IH].
Qed.

Lemma removeFirst_Forall {A} (P : A -> Prop) (p : A -> bool) (l : list A) :
  Forall P l -> Forall P (removeFirst p l).
Proof.
  intros H. rewrite Forall_forall in *. intros x I.
  apply H. now apply (removeFirst_incl p).
Qed.

Lemma removeFirst_NoDup_map {Doc Key} (key : Doc -> Key) (sel : Doc -> bool) :
  forall docs, NoDup (map key docs) -> NoDup (map key (removeFirst sel docs)).
Proof.
  induction docs as [|d docs IH]; simpl; intros H; [constructor|].
  inversion H as [|? ? Hd Hdocs]; subst.
  destruct (sel d); [assumption|].
  simpl. constructor; [|now apply IH].
  intros I. apply Hd. apply in_map_iff in I. destruct I as [d' [E I]].
  apply in_map_iff. exists d'. split; [assumption|].
  now apply (removeFirst_incl sel).
Qed.

Lemma replaceFirst_map {A B} (f : A -> B) (p : A -> bool) (y : A) (l : list A) :
  (forall x, p x = true -> f x = f y) ->
  map f (replaceFirst p y l) = map f l.
Proof.
  intros Hp. induction l as [|x l IH]; simpl; [reflexivity|].
  destruct (p x) eqn:E; simpl.
  - f_equal. symmetry. now apply Hp.
  - now rewrite IH.
Qed.

Lemma replaceFirst_Forall {A} (P : A -> Prop) (p : A -> bool) (y : A) (l : list A) :
  P y -> Forall P l -> Forall P (replaceFirst p y l).
Proof.
  intros Hy. induction 1 as [|x l Hx Hl IH]; simpl; [constructor|].
  destruct (p x); constructor; assumption.
Qed.

Lemma Forall_snoc {A} (P : A -> Prop) (l : list A) (x : A) :
  Forall P l -> P x -> Forall P (l ++ [x]).
Proof.
  intros Hl Hx. apply Forall_app. split; [assumption|].
  constructor; [assumption|constructor].
Qed.

Lemma updSocket_map_sid (id : SocketId) (f : Socket -> Socket) (l : list Socket) :
  (forall s, sid (f s) = sid s) ->
  map sid (updSocket id f l) = map sid l.
Proof.
  intros Hf. unfold updSocket. rewrite map_map.
  apply map_ext. intros s. destruct (sid s =? id); [apply Hf|reflexivity].
Qed.

Lemma updSocket_Forall (P : Socket -> Prop) (id : SocketId) (f : Socket -> Socket)
    (l : list Socket) :
  (forall s, P s -> P (f s)) -> Forall P l -> Forall P (updSocket id f l).
Proof.
  intros Hf H. unfold updSocket. apply Forall_map.
  revert H. apply Forall_impl. intros s Hs.
  destruct (sid s =? id); [now apply Hf|assumption].
Qed.

Lemma filter_sockets_NoDup (keep : Socket -> bool) (ss : list Socket) :
  NoDup (map sid ss) -> NoDup (map sid (filter keep ss)).
Proof.
  induction ss as [|s ss IH]; simpl; intros H; [constructor|].
  inversion H as [|? ? Hs Hss]; subst.
  destruct (keep s); [|now apply IH].
  simpl. constructor; [|now apply IH].
  intros I. apply Hs. apply in_map_iff in I. destruct I as [s' [E I]].
  apply in_map_iff. exists s'. split; [assumption|].
  apply filter_In in I. tauto.
Qed.

Lemma lookupSocket_None (id : SocketId) (st : State) :
  lookupSocket id st = None -> ~ In id (map sid (sockets st)).
Proof.
  unfold lookupSocket. intros H I.
  apply in_map_iff in I. destruct I as [s [E I]].
  apply (find_none _ _ H) in I. simpl in I.
  rewrite E, String.eqb_refl in I. discriminate.
Qed.

Lemma lookupSocket_Some (id : SocketId) (st : State) (s : Socket) :
  lookupSocket id st = Some s -> In s (sockets st) /\ sid s = id.
Proof.
  unfold lookupSocket. intros H. apply find_some in H.
  destruct H as [I E]. split; [assumption|now apply String.eqb_eq].
Qed.

(** ** The invariant of the reachable states *)

Lemma wf_initial : wf initial.
Proof. split; simpl; constructor. Qed.

Ltac unfold_m :=
  unfold bind, ret, get, put, tell, throw, post, result, out in *; simpl in *.

Lemma fresh_succ (ms : list Message.t) (n : N) :
  Forall (fun m => (Message._id m < n)%N) ms ->
  Forall (fun m => (Message._id m < N.succ n)%N) ms.
Proof. apply Forall_impl. intros m H. lia. Qed.

Lemma fresh_notin (ms : list Message.t) (n : N) :
  Forall (fun m => (Message._id m < n)%N) ms -> ~ In n (map Message._id ms).
Proof.
  intros H I. apply in_map_iff in I. destruct I as [m [E I]].
  rewrite Forall_forall in H. apply H in I. lia.
Qed.

(** Adding a room, as [Room.create] does after its checks. *)
Lemma wf_add_room (st : State) (r : Room.t) :
  wf st -> ~ In (Room.name r) (map Room.name (Rooms st)) -> trim (Room.name r) <> "" ->
  wf (bumpId (setRooms st (Rooms st ++ [r]))).
Proof.
  intros [] Hn Ht. split; simpl; try assumption.
  - rewrite map_app. simpl. now apply NoDup_snoc.
  - now apply Forall_snoc.
  - now apply fresh_succ.
Qed.

Lemma wf_setSockets (st : State) (ss : list Socket) :
  wf st ->
  Forall (fun s => forall u, suser s = Some u -> User.username u <> "") ss ->
  NoDup (map sid ss) ->
  wf (setSockets st ss).
Proof. intros [] H1 H2. split; simpl; assumption. Qed.

Lemma wf_updSocket (st : State) (id : SocketId) (f : Socket -> Socket) :
  wf st ->
  (forall s, sid (f s) = sid s) ->
  (forall s, (forall u, suser s = Some u -> User.username u <> "") ->
             forall u, suser (f s) = Some u -> User.username u <> "") ->
  wf (setSockets st (updSocket id f (sockets st))).
Proof.
  intros W Hsid Hu. apply wf_setSockets; [assumption| |].
  - apply updSocket_Forall; [assumption|apply W].
  - rewrite updSocket_map_sid; [apply W|assumption].
Qed.

Lemma post_signup_wf u p a st : wf st -> wf (post (post_signup u p a st)).
Proof.
  intros W. unfold post_signup, try_catch, User_create.
  destruct u as [un|], p as [pw|]; unfold_m; try assumption.
  destruct (required un) eqn:Hu; unfold_m; [|assumption].
  destruct (required pw) eqn:Hp; unfold_m; [|assumption].
  destruct (existsb _ (Users st)); unfold_m; [assumption|].
  destruct W. split; simpl; try assumption.
  - apply Forall_snoc; [assumption|]. simpl. now apply required_true.
  - now apply fresh_succ.
Qed.

Lemma trim_lobby : trim "lobby" <> "".
Proof. vm_compute. discriminate. Qed.

Lemma get_index_wf now uid st : wf st -> wf (post (get_index now uid st)).
Proof.
  intros W. unfold get_index, deserializeUser, User_findById, Room_find_sort_name, Room_create.
  destruct uid as [id|]; unfold_m; [|assumption].
  destruct (find _ (Users st)) as [u|]; unfold_m; [|assumption].
  destruct (sortBy _ (Rooms st)) eqn:Hs; unfold_m; [|assumption].
  destruct (required (User.username u)); unfold_m; [|assumption].
  destruct (existsb _ (Rooms st)) eqn:He; unfold_m; [assumption|].
  apply wf_add_room; [assumption| |apply trim_lobby].
  now apply existsb_name_false.
Qed.

Lemma on_connection_wf id uid st :
  wf st -> wf (post (on_connection id uid st)).
Proof.
  intros W. unfold on_connection, socket_disconnect, User_findById, setUser,
    Room_find_sort_name, socket_emit.
  destruct uid as [u0|]; unfold_m.
  - destruct (find _ (Users st)) as [u|] eqn:Hf; unfold_m; [|assumption].
    apply wf_updSocket; [assumption|reflexivity|].
    simpl. intros s _ u' E. injection E as <-.
    apply find_some in Hf. destruct Hf as [I _].
    destruct W as [Wu]. rewrite Forall_forall in Wu. now apply Wu.
  - apply wf_setSockets; [assumption| |].
    + apply Forall_forall. intros s I. apply filter_In in I.
      destruct W as [_ Ws]. rewrite Forall_forall in Ws. apply Ws. tauto.
    + apply filter_sockets_NoDup. apply W.
Qed.

Lemma on_newRoom_wf now u name st : wf st -> wf (post (on_newRoom now u name st)).
Proof.
  intros W. unfold on_newRoom, Room_exists, Room_create, Room_find_sort_name, io_emit.
  destruct name as [[| | | |s]|]; unfold_m; try assumption.
  destruct (trim s =? "") eqn:Ht; unfold_m; [assumption|].
  destruct (existsb _ (Rooms st)) eqn:He; unfold_m; [assumption|].
  destruct (required s && required (User.username u)); unfold_m; [|assumption].
  rewrite He. unfold_m.
  apply wf_add_room; [assumption| |].
  - now apply existsb_name_false.
  - now apply String.eqb_neq.
Qed.

Lemma on_deleteRoom_wf u name st : wf st -> wf (post (on_deleteRoom u name st)).
Proof.
  intros W. unfold on_deleteRoom, Room_findOne, Room_deleteOne, Room_find_sort_name, io_emit.
  unfold_m.
  destruct (find _ (Rooms st)) as [r|]; unfold_m; [|assumption].
  destruct (Room.createdBy r =? User.username u); unfold_m; [|assumption].
  destruct W. split; simpl; try assumption.
  - now apply removeFirst_NoDup_map.
  - now apply removeFirst_Forall.
Qed.

Lemma on_joinRoom_wf id room st : wf st -> wf (post (on_joinRoom id room st)).
Proof.
  intros W. unfold on_joinRoom, socket_leaveAll, socket_join, Message_find_sort_time, socket_emit.
  unfold_m.
  pose proof (wf_updSocket id (fun s => mkSocket (sid s) (suser s) []) W) as W1.
  specialize (W1 (fun _ => eq_refl) (fun _ H => H)).
  apply (wf_updSocket id
           (fun s => mkSocket (sid s) (suser s) (fold_left addRoom (targets room) (srooms s)))
           W1 (fun _ => eq_refl) (fun _ H => H)).
Qed.

Lemma wf_add_message (st : State) (m : Message.t) :
  wf st -> Message._id m = nextId st -> Message.seenBy m = [] ->
  wf (bumpId (setMessages st (Messages st ++ [m]))).
Proof.
  intros [] Hi Hs. split; simpl; try assumption.
  - apply Forall_snoc; [now apply fresh_succ|]. simpl. lia.
  - rewrite map_app. simpl. apply NoDup_snoc; [assumption|].
    rewrite Hi. now apply fresh_notin.
  - apply Forall_snoc; [assumption|]. simpl. rewrite Hs. constructor.
Qed.

Lemma on_chatMessage_wf now u payload st :
  wf st -> wf (post (on_chatMessage now u payload st)).
Proof.
  intros W. unfold on_chatMessage, Message_create, io_to_emit.
  destruct payload as [[room text]|]; unfold_m; [|assumption].
  destruct (truthy room); unfold_m; [|assumption].
  destruct text as [[| | | |t]|]; unfold_m; try assumption.
  destruct (trim t =? ""); unfold_m; [assumption|].
  destruct room as [a|l]; unfold_m; [|assumption].
  destruct (castString a) as [r|]; unfold_m; [|assumption].
  destruct (required r && required (User.username u) && required t); unfold_m; [|assumption].
  now apply wf_add_message.
Qed.

Lemma on_deleteMessage_wf u mid st : wf st -> wf (post (on_deleteMessage u mid st)).
Proof.
  intros W. unfold on_deleteMessage, Message_findById, Message_deleteOne, io_to_emit.
  destruct mid as [|oid|]; unfold_m; try assumption.
  destruct (find _ (Messages st)) as [m|]; unfold_m; [|assumption].
  destruct (Message.user m =? User.username u); unfold_m; [|assumption].
  destruct W. split; simpl; try assumption.
  - now apply removeFirst_Forall.
  - now apply removeFirst_NoDup_map.
  - now apply removeFirst_Forall.
Qed.

Lemma on_seen_wf u payload st : wf st -> wf (post (on_seen u payload st)).
Proof.
  intros W. unfold on_seen, Message_findById, Message_save, io_to_emit.
  destruct payload as [[|oid|]|]; unfold_m; try assumption.
  destruct (find _ (Messages st)) as [m|] eqn:Hf; unfold_m; [|assumption].
  destruct (existsb _ (Message.seenBy m)) eqn:He; unfold_m; [assumption|].
  apply find_some in Hf. destruct Hf as [Hin Hid].
  destruct W as [? ? ? ? ? Wf Wi Ws]. split; simpl; try assumption.
  - apply replaceFirst_Forall; [|assumption]. simpl.
    rewrite Forall_forall in Wf. now apply Wf.
  - rewrite replaceFirst_map; [assumption|].
    simpl. intros x Hx. now apply N.eqb_eq.
  - apply replaceFirst_Forall; [|assumption]. simpl.
    apply NoDup_snoc.
    + rewrite Forall_forall in Ws. now apply Ws.
    + now apply existsb_eqb_false.
Qed.

Lemma step_wf now i st : wf st -> wf (post (step now i st)).
Proof.
  intros W. destruct i as [u p a|uid|id uid|id ev|id]; unfold step.
  - now apply post_signup_wf.
  - now apply get_index_wf.
  - unfold bind at 1, get. simpl.
    destruct (lookupSocket id st) eqn:Hl; [exact W|].
    unfold bind at 1, put. simpl.
    match goal with
    | |- context [on_connection id uid ?s] =>
        pose proof (@on_connection_wf id uid s) as H;
        destruct (on_connection id uid s) as [[r s'] o] eqn:E
    end.
    simpl in *. apply H.
    apply wf_setSockets; [assumption| |].
    + apply Forall_snoc; [apply W|]. simpl. discriminate.
    + rewrite map_app. simpl. apply NoDup_snoc; [apply W|].
      now apply lookupSocket_None.
  - unfold bind at 1, get. simpl.
    destruct (lookupSocket id st) as [s|]; [|exact W].
    destruct (suser s) as [u|]; [|exact W].
    match goal with
    | |- context [dispatch now id u ev st] =>
        assert (wf (post (dispatch now id u ev st))) as H
    end.
    { destruct ev; simpl.
      - now apply on_newRoom_wf.
      - now apply on_deleteRoom_wf.
      - now apply on_joinRoom_wf.
      - now apply on_chatMessage_wf.
      - now apply on_deleteMessage_wf.
      - unfold on_typing, socket_to_emit. destruct (truthy room); unfold_m; assumption.
      - unfold on_stopTyping, socket_to_emit. destruct (truthy room); unfold_m; assumption.
      - now apply on_seen_wf. }
    unfold post in *. destruct (dispatch now id u ev st) as [[r s'] o]. simpl in *. exact H.
  - unfold socket_disconnect. unfold_m.
    apply wf_setSockets; [assumption| |].
    + apply Forall_forall. intros s I. apply filter_In in I.
      destruct W as [_ Ws]. rewrite Forall_forall in Ws. apply Ws. tauto.
    + apply filter_sockets_NoDup. apply W.
Qed.

Lemma run_wf tr : forall st, wf st -> wf (run st tr).
Proof.
  induction tr as [|[now i] tr IH]; intros st W; simpl; [assumption|].
  apply IH. now apply step_wf.
Qed.

Lemma reachable_wf st : reachable st -> wf st.
Proof. intros [tr ->]. apply run_wf, wf_initial. Qed.

(** ** What a step leaves alone *)

Lemma step_recv now id ev st s u :
  lookupSocket id st = Some s -> suser s = Some u ->
  step now (Recv id ev) st = dispatch now id u ev st.
Proof.
  intros Hl Hu. unfold step, bind, get. rewrite Hl, Hu.
  destruct (dispatch now id u ev st) as [[r st'] o]. reflexivity.
Qed.

Lemma step_recv_user now id ev st u :
  userOf id st = Some u -> step now (Recv id ev) st = dispatch now id u ev st.
Proof.
  unfold userOf. destruct (lookupSocket id st) as [s|] eqn:Hl; [|discriminate].
  intros Hu. now apply step_recv with s.
Qed.

Lemma step_recv_dropped now id ev st :
  userOf id st = None -> step now (Recv id ev) st = (Ok tt, st, []).
Proof.
  unfold userOf, step, bind, get, ret.
  destruct (lookupSocket id st) as [s|]; [|reflexivity].
  now intros ->.
Qed.

Lemma lookup_updSocket (id id' : SocketId) (f : Socket -> Socket) (l : list Socket) :
  (forall s, sid (f s) = sid s) ->
  find (fun s => sid s =? id') (updSocket id f l) =
  if id' =? id then option_map f (find (fun s => sid s =? id') l)
  else find (fun s => sid s =? id') l.
Proof.
  intros Hf. induction l as [|s l IH]; simpl.
  - now destruct (id' =? id).
  - destruct (sid s =? id) eqn:E1.
    + rewrite Hf. destruct (sid s =? id') eqn:E2.
      * apply String.eqb_eq in E1, E2. subst id'. rewrite <- E1 at 1.
        now rewrite String.eqb_refl.
      * exact IH.
    + destruct (sid s =? id') eqn:E2; [|exact IH].
      apply String.eqb_eq in E2. subst id'. now rewrite E1.
Qed.

Ltac break_inner x :=
  lazymatch x with
  | context [match ?y with _ => _ end] => break_inner y
  | _ => destruct x eqn:?
  end.

Ltac break_match :=
  match goal with
  | |- context [match ?x with _ => _ end] => break_inner x
  end.

Ltac frame_tac := unfold_m; repeat (break_match; unfold_m); try reflexivity.

Lemma post_signup_sockets u p a st : sockets (post (post_signup u p a st)) = sockets st.
Proof.
  unfold post_signup, try_catch, User_create. frame_tac.
Qed.

Lemma get_index_sockets now uid st : sockets (post (get_index now uid st)) = sockets st.
Proof.
  unfold get_index, deserializeUser, User_findById, Room_find_sort_name, Room_create.
  frame_tac.
Qed.

Lemma on_newRoom_sockets now u name st :
  sockets (post (on_newRoom now u name st)) = sockets st.
Proof.
  unfold on_newRoom, Room_exists, Room_create, Room_find_sort_name, io_emit.
  frame_tac.
Qed.

Lemma on_deleteRoom_sockets u name st :
  sockets (post (on_deleteRoom u name st)) = sockets st.
Proof.
  unfold on_deleteRoom, Room_findOne, Room_deleteOne, Room_find_sort_name, io_emit.
  frame_tac.
Qed.

Lemma on_chatMessage_sockets now u payload st :
  sockets (post (on_chatMessage now u payload st)) = sockets st.
Proof.
  unfold on_chatMessage, Message_create, io_to_emit. frame_tac.
Qed.

Lemma on_deleteMessage_sockets u mid st :
  sockets (post (on_deleteMessage u mid st)) = sockets st.
Proof.
  unfold on_deleteMessage, Message_findById, Message_deleteOne, io_to_emit. frame_tac.
Qed.

Lemma on_seen_sockets u payload st :
  sockets (post (on_seen u payload st)) = sockets st.
Proof.
  unfold on_seen, Message_findById, Message_save, io_to_emit. frame_tac.
Qed.

Lemma on_typing_unchanged id u room st : post (on_typing id u room st) = st.
Proof. unfold on_typing, socket_to_emit. frame_tac. Qed.

Lemma on_stopTyping_unchanged id room st : post (on_stopTyping id room st) = st.
Proof. unfold on_stopTyping, socket_to_emit. frame_tac. Qed.

Lemma on_joinRoom_sockets id room st :
  sockets (post (on_joinRoom id room st)) =
  updSocket id (fun s => mkSocket (sid s) (suser s) (fold_left addRoom (targets room) []))
    (sockets st).
Proof.
  unfold on_joinRoom, socket_leaveAll, socket_join, Message_find_sort_time, socket_emit.
  unfold_m. unfold updSocket. rewrite map_map. apply map_ext. intros s.
  destruct (sid s =? id) eqn:E; simpl; now rewrite E.
Qed.

Lemma on_joinRoom_roomsOf id room st s :
  lookupSocket id st = Some s ->
  lookupSocket id (post (on_joinRoom id room st)) =
  Some (mkSocket (sid s) (suser s) (fold_left addRoom (targets room) [])).
Proof.
  unfold lookupSocket. intros H. rewrite on_joinRoom_sockets.
  rewrite lookup_updSocket by reflexivity.
  now rewrite String.eqb_refl, H.
Qed.

(** ** Room membership (C1) *)

Lemma addRoom_one (rooms : list Atom) :
  (List.length rooms <= 1)%nat -> (List.length (fold_left addRoom rooms []) <= 1)%nat.
Proof.
  destruct rooms as [|a [|b l]]; simpl; intros H; try lia.
Qed.

Lemma dispatch_singleRoom now id u ev st :
  namesOneRoom (Recv id ev) = true -> singleRoom st ->
  singleRoom (post (dispatch now id u ev st)).
Proof.
  unfold singleRoom. intros Hn S. destruct ev; cbn [dispatch].
  - now rewrite on_newRoom_sockets.
  - now rewrite on_deleteRoom_sockets.
  - rewrite on_joinRoom_sockets. apply updSocket_Forall; [|assumption].
    intros s _. simpl. apply addRoom_one. simpl in Hn. now apply Nat.leb_le.
  - now rewrite on_chatMessage_sockets.
  - now rewrite on_deleteMessage_sockets.
  - now rewrite on_typing_unchanged.
  - now rewrite on_stopTyping_unchanged.
  - now rewrite on_seen_sockets.
Qed.

Lemma filter_Forall {A} (P : A -> Prop) (p : A -> bool) (l : list A) :
  Forall P l -> Forall P (filter p l).
Proof.
  intros H. rewrite Forall_forall in *. intros x I. apply H.
  apply filter_In in I. tauto.
Qed.

Lemma on_connection_singleRoom id uid st :
  singleRoom st -> singleRoom (post (on_connection id uid st)).
Proof.
  unfold singleRoom, on_connection, socket_disconnect, User_findById, setUser,
    Room_find_sort_name, socket_emit.
  intros S. destruct uid as [u0|]; unfold_m.
  - destruct (find _ (Users st)) as [u|]; unfold_m; [|assumption].
    apply updSocket_Forall; [|assumption]. now intros s H.
  - now apply filter_Forall.
Qed.

Lemma step_singleRoom now i st :
  namesOneRoom i = true -> singleRoom st -> singleRoom (post (step now i st)).
Proof.
  intros Hn S. destruct i as [u p a|uid|id uid|id ev|id].
  - unfold singleRoom, step. now rewrite post_signup_sockets.
  - unfold singleRoom, step. now rewrite get_index_sockets.
  - unfold step. unfold bind at 1, get. simpl.
    destruct (lookupSocket id st); [exact S|].
    unfold bind at 1, put. simpl.
    match goal with
    | |- context [on_connection id uid ?s] =>
        pose proof (@on_connection_singleRoom id uid s) as H;
        destruct (on_connection id uid s) as [[r s'] o]
    end.
    simpl in *. apply H. unfold singleRoom. simpl.
    apply Forall_snoc; [assumption|]. simpl. lia.
  - destruct (userOf id st) as [u|] eqn:Hu.
    + rewrite (@step_recv_user now id ev st u Hu). now apply dispatch_singleRoom.
    + now rewrite (@step_recv_dropped now id ev st Hu).
  - unfold step, socket_disconnect. unfold_m. now apply filter_Forall.
Qed.

Lemma run_singleRoom tr : forall st,
  Forall (fun ni => namesOneRoom (snd ni) = true) tr ->
  singleRoom st -> singleRoom (run st tr).
Proof.
  induction tr as [|[now i] tr IH]; intros st H S; simpl; [assumption|].
  inversion H; subst. apply IH; [assumption|]. now apply step_singleRoom.
Qed.

Lemma singleRoom_roomsOf id st : singleRoom st -> (List.length (roomsOf id st) <= 1)%nat.
Proof.
  unfold singleRoom, roomsOf. intros S.
  destruct (lookupSocket id st) as [s|] eqn:Hl; [|simpl; lia].
  apply lookupSocket_Some in Hl. destruct Hl as [I _].
  rewrite Forall_forall in S. now apply S.
Qed.

Lemma hasRoom_single (a b : Atom) :
  sameValueZero a b = false -> hasRoom a [b] = false.
Proof. unfold hasRoom. simpl. now intros ->. Qed.

(** C1, as the code has it: in every run in which each [joinRoom] names at
    most one room (a single room name, not an array of several), a connection
    is a member of at most one room at any instant; and after a [joinRoom]
    followed by a [joinRoom] naming the one room [b], the connection is a
    member of [b] only, so of no room [a] other than [b]. *)
Theorem C1_at_most_one_room :
  forall tr, Forall (fun ni => namesOneRoom (snd ni) = true) tr ->
  forall id,
    (List.length (roomsOf id (run initial tr)) <= 1)%nat /\
    forall now1 now2 va vb b u,
      userOf id (run initial tr) = Some u ->
      targets vb = [b] ->
      let st2 := run (run initial tr)
                   [(now1, Recv id (joinRoom va)); (now2, Recv id (joinRoom vb))] in
      roomsOf id st2 = [b] /\
      forall a, sameValueZero a b = false -> hasRoom a (roomsOf id st2) = false.
Proof.
  intros tr Htr id. split.
  - apply singleRoom_roomsOf. apply run_singleRoom; [assumption|].
    unfold singleRoom, initial. simpl. constructor.
  - intros now1 now2 va vb b u Hu Hb st2.
    set (st := run initial tr) in *.
    assert (roomsOf id st2 = [b]) as R.
    { subst st2. unfold run at 1. cbn [fold_left fst snd].
      unfold userOf in Hu. destruct (lookupSocket id st) as [s|] eqn:Hl; [|discriminate].
      rewrite (@step_recv now1 id (joinRoom va) _ _ _ Hl Hu). cbn [dispatch].
      pose proof (@on_joinRoom_roomsOf id va _ _ Hl) as Hl1.
      rewrite (@step_recv now2 id (joinRoom vb) _ _ _ Hl1 Hu). cbn [dispatch].
      pose proof (@on_joinRoom_roomsOf id vb _ _ Hl1) as Hl2.
      unfold roomsOf. rewrite Hl2. simpl. now rewrite Hb. }
    split; [exact R|]. intros a Ha. rewrite R. now apply hasRoom_single.
Qed.

Lemma C1_at_most_one_room_witness :
  Forall (fun ni => namesOneRoom (snd ni) = true) run_alice_joined /\
  (List.length (roomsOf "s1" (run initial run_alice_joined)) <= 1)%nat /\
  roomsOf "s1"
    (run (run initial run_alice_joined)
       [(4%N, Recv "s1" (joinRoom (JStr "random")));
        (5%N, Recv "s1" (joinRoom (JStr "general")))]) = [AStr "general"].
Proof.
  assert (Forall (fun ni => namesOneRoom (snd ni) = true) run_alice_joined) as H.
  { repeat constructor. }
  split; [exact H|].
  destruct (@C1_at_most_one_room run_alice_joined H "s1") as [H1 H2].
  split; [exact H1|].
  refine (proj1 (H2 4%N 5%N (JStr "random") (JStr "general") (AStr "general")
                   (User.mk 0%N "alice" "secret" None) _ _)); reflexivity.
Defined.

(** C1, as the spec states it, fails: a [joinRoom] carrying an array joins
    every room of the array, so after [joinRoom("A")] and
    [joinRoom(["A","B"])] the connection is in two rooms and still in "A". *)
Lemma C1_counterexample :
  let st := run initial
              [ (1%N, Signup (Some "alice") (Some "secret") None);
                (2%N, Connect "s1" (Some 0%N));
                (3%N, Recv "s1" (joinRoom (JStr "A")));
                (4%N, Recv "s1" (joinRoom (JArr [AStr "A"; AStr "B"]))) ] in
  roomsOf "s1" st = [AStr "A"; AStr "B"] /\
  ~ (List.length (roomsOf "s1" st) <= 1)%nat /\
  hasRoom (AStr "A") (roomsOf "s1" st) = true.
Proof.
  vm_compute. repeat split. intros H.
  apply Nat.leb_le in H. discriminate.
Qed.

(** ** Failed preconditions (C2) *)

(** C2, evaluated at the failing input: a [chatMessage] whose payload has a
    room and no [text] makes the handler throw a [TypeError], where the claim
    asks for a silent no-op without an exception.  The sibling [newRoom]
    handler guards the same call with [name?.trim()]. *)
Theorem C2_chatMessage_missing_text_throws :
  forall now user st,
    on_chatMessage now user (Some (JStr "general", JUndefined)) st = (Throw TypeError, st, []) /\
    on_newRoom now user JUndefined st = (Ok tt, st, []).
Proof. intros now user st. split; reflexivity. Qed.

(** ** Unauthenticated connections (C3) *)

Lemma state_eta (st : State) :
  mkState (Users st) (Rooms st) (Messages st) (nextId st) (sockets st) = st.
Proof. now destruct st. Qed.

Lemma filter_fresh_socket (id : SocketId) (l : list Socket) :
  ~ In id (map sid l) ->
  filter (fun s => negb (sid s =? id)) (l ++ [mkSocket id None [AStr id]]) = l.
Proof.
  intros H. rewrite filter_app. simpl. rewrite String.eqb_refl. simpl.
  rewrite app_nil_r. induction l as [|s l IH]; simpl in *; [reflexivity|].
  destruct (sid s =? id) eqn:E.
  - apply String.eqb_eq in E. tauto.
  - simpl. f_equal. apply IH. tauto.
Qed.

Lemma emitAll_In (id : SocketId) (ev ev' : OutEvent) (l : list Socket) :
  In (Emit id ev) (emitAll ev' l) -> In id (map sid l).
Proof.
  unfold emitAll. intros H. apply in_map_iff in H.
  destruct H as [s [E I]]. injection E as E _.
  apply in_map_iff. now exists s.
Qed.

Lemma recipients_incl rooms except st : incl (recipients rooms except st) (sockets st).
Proof. unfold recipients. intros s I. apply filter_In in I. tauto. Qed.

Lemma emitAll_recipients_In id ev ev' rooms except st :
  In (Emit id ev) (emitAll ev' (recipients rooms except st)) -> In id (map sid (sockets st)).
Proof.
  intros H. apply emitAll_In in H. apply in_map_iff in H.
  destruct H as [s [E I]]. apply in_map_iff. exists s. split; [assumption|].
  now apply (@recipients_incl rooms except st).
Qed.

(** Every event of a handler goes to a connected socket. *)
Lemma dispatch_emits_connected now id0 u ev st id e :
  In id0 (map sid (sockets st)) ->
  In (Emit id e) (out (dispatch now id0 u ev st)) -> In id (map sid (sockets st)).
Proof.
  intros Hid0. destruct ev; cbn [dispatch].
  - unfold on_newRoom, Room_exists, Room_create, Room_find_sort_name, io_emit.
    frame_tac; try tauto.
    intros H. now apply emitAll_In in H.
  - unfold on_deleteRoom, Room_findOne, Room_deleteOne, Room_find_sort_name, io_emit.
    frame_tac; try tauto.
    intros H. now apply emitAll_In in H.
  - unfold on_joinRoom, socket_leaveAll, socket_join, Message_find_sort_time, socket_emit.
    unfold_m. intros [E|[]]. injection E as <- _. assumption.
  - unfold on_chatMessage, Message_create, io_to_emit.
    frame_tac; try tauto.
    intros H. now apply emitAll_recipients_In in H.
  - unfold on_deleteMessage, Message_findById, Message_deleteOne, io_to_emit.
    frame_tac; try tauto.
    intros H. now apply emitAll_recipients_In in H.
  - unfold on_typing, socket_to_emit. frame_tac; try tauto.
    intros H. now apply emitAll_recipients_In in H.
  - unfold on_stopTyping, socket_to_emit. frame_tac; try tauto.
    intros H. now apply emitAll_recipients_In in H.
  - unfold on_seen, Message_findById, Message_save, io_to_emit.
    frame_tac; try tauto.
    intros H. now apply emitAll_recipients_In in H.
Qed.

Lemma step_emits_connected now i st id e :
  In (Emit id e) (out (step now i st)) ->
  In id (map sid (sockets st)) \/ exists uid, i = Connect id uid.
Proof.
  destruct i as [u p a|uid|id0 uid|id0 ev|id0]; unfold step.
  - unfold post_signup, try_catch, User_create. frame_tac; simpl; intuition discriminate.
  - unfold get_index, deserializeUser, User_findById, Room_find_sort_name, Room_create.
    frame_tac; simpl; intuition discriminate.
  - unfold on_connection, socket_disconnect, User_findById, setUser,
      Room_find_sort_name, socket_emit.
    frame_tac; simpl; try tauto.
    intros [E|[]]. injection E as <- _. right. eexists. reflexivity.
  - destruct (userOf id0 st) as [u|] eqn:Hu.
    + fold (step now (Recv id0 ev) st). rewrite (@step_recv_user now id0 ev st u Hu).
      intros H. left. apply (@dispatch_emits_connected now id0 u ev st id e); [|assumption].
      unfold userOf in Hu. destruct (lookupSocket id0 st) as [s|] eqn:Hl; [|discriminate].
      apply lookupSocket_Some in Hl. destruct Hl as [I <-]. now apply in_map.
    + fold (step now (Recv id0 ev) st). rewrite (@step_recv_dropped now id0 ev st Hu).
      simpl. tauto.
  - unfold socket_disconnect. unfold_m. tauto.
Qed.

Lemma lookupSocket_absent (id : SocketId) (st : State) :
  ~ In id (map sid (sockets st)) -> lookupSocket id st = None.
Proof.
  unfold lookupSocket. intros H.
  destruct (find (fun s => sid s =? id) (sockets st)) as [s|] eqn:Hf; [|reflexivity].
  apply find_some in Hf. destruct Hf as [I E].
  apply String.eqb_eq in E. elim H. rewrite <- E. now apply in_map.
Qed.

Lemma dispatch_sids now id0 u ev st :
  map sid (sockets (post (dispatch now id0 u ev st))) = map sid (sockets st).
Proof.
  destruct ev; cbn [dispatch].
  - now rewrite on_newRoom_sockets.
  - now rewrite on_deleteRoom_sockets.
  - rewrite on_joinRoom_sockets. now apply updSocket_map_sid.
  - now rewrite on_chatMessage_sockets.
  - now rewrite on_deleteMessage_sockets.
  - now rewrite on_typing_unchanged.
  - now rewrite on_stopTyping_unchanged.
  - now rewrite on_seen_sockets.
Qed.

Lemma on_connection_sids id0 uid st :
  incl (map sid (sockets (post (on_connection id0 uid st)))) (map sid (sockets st)).
Proof.
  unfold on_connection, socket_disconnect, User_findById, setUser,
    Room_find_sort_name, socket_emit.
  destruct uid as [u0|]; unfold_m.
  - destruct (find _ (Users st)) as [u|]; unfold_m; [|apply incl_refl].
    rewrite updSocket_map_sid by reflexivity. apply incl_refl.
  - intros x I. apply in_map_iff in I. destruct I as [s [E I]].
    apply filter_In in I. apply in_map_iff. exists s. tauto.
Qed.

(** Only a connection adds a socket id to the hub. *)
Lemma step_sids now i st x :
  In x (map sid (sockets (post (step now i st)))) ->
  In x (map sid (sockets st)) \/ exists uid, i = Connect x uid.
Proof.
  destruct i as [u p a|uid|id0 uid|id0 ev|id0].
  - unfold step. rewrite post_signup_sockets. tauto.
  - unfold step. rewrite get_index_sockets. tauto.
  - unfold step. unfold bind at 1, get. simpl.
    destruct (lookupSocket id0 st); [simpl; tauto|].
    unfold bind at 1, put. simpl.
    match goal with
    | |- context [on_connection id0 uid ?s] =>
        pose proof (@on_connection_sids id0 uid s) as H;
        destruct (on_connection id0 uid s) as [[r s'] o]
    end.
    simpl in *. intros I. apply H in I. rewrite map_app, in_app_iff in I.
    simpl in I. destruct I as [I|[<-|[]]]; [now left|right; now exists uid].
  - destruct (userOf id0 st) as [u|] eqn:Hu.
    + rewrite (@step_recv_user now id0 ev st u Hu), dispatch_sids. tauto.
    + rewrite (@step_recv_dropped now id0 ev st Hu). simpl. tauto.
  - unfold step, socket_disconnect. unfold_m. intros I.
    apply in_map_iff in I. destruct I as [s [E I]].
    apply filter_In in I. left. apply in_map_iff. exists s. tauto.
Qed.

Lemma run_absent id tr : forall st,
  Forall (fun ni => forall uid, snd ni <> Connect id uid) tr ->
  lookupSocket id st = None -> lookupSocket id (run st tr) = None.
Proof.
  induction tr as [|[now i] tr IH]; intros st H Hl; simpl; [assumption|].
  inversion H as [|? ? Hi Htr]; subst. simpl in Hi.
  apply IH; [assumption|]. apply lookupSocket_absent. intros I.
  apply step_sids in I. destruct I as [I|[uid E]].
  - now apply lookupSocket_None in Hl.
  - now apply (Hi uid).
Qed.

(** C3: a connection whose session gives no user id is disconnected by the
    connection handler: the server is left as it was and nothing is sent;
    an event arriving on it afterwards is dropped without effect; and
    through every later run of the server, as long as the socket id does not
    connect anew, no step sends it anything, the room list included. *)
Theorem C3_unauthenticated_connection :
  forall now st id,
    lookupSocket id st = None ->
    step now (Connect id None) st = (Ok tt, st, []) /\
    (forall now' ev, step now' (Recv id ev) st = (Ok tt, st, [])) /\
    (forall tr, Forall (fun ni => forall uid, snd ni <> Connect id uid) tr ->
       forall now' i e, (forall uid, i <> Connect id uid) ->
                        ~ In (Emit id e) (out (step now' i (run st tr)))).
Proof.
  intros now st id Hl. split; [|split].
  - unfold step, on_connection, socket_disconnect. unfold_m. rewrite Hl. unfold_m.
    rewrite filter_fresh_socket by now apply lookupSocket_None.
    unfold setSockets. simpl. now rewrite state_eta.
  - intros now' ev. apply step_recv_dropped. unfold userOf. now rewrite Hl.
  - intros tr Htr now' i e Hi H. apply step_emits_connected in H.
    destruct H as [H|[uid H]].
    + pose proof (@run_absent id tr st Htr Hl) as Hl'. now apply lookupSocket_None in Hl'.
    + now apply (Hi uid).
Qed.

Lemma C3_unauthenticated_connection_witness :
  lookupSocket "s9" (run initial run_alice_joined) = None /\
  step 7%N (Connect "s9" None) (run initial run_alice_joined) =
  (Ok tt, run initial run_alice_joined, []).
Proof.
  split; [reflexivity|].
  exact (proj1 (@C3_unauthenticated_connection 7%N (run initial run_alice_joined) "s9" eq_refl)).
Defined.

(** ** The room directory (C4, C8) *)

Lemma userOf_username st id u :
  wf st -> userOf id st = Some u -> User.username u <> "".
Proof.
  intros W. unfold userOf.
  destruct (lookupSocket id st) as [s|] eqn:Hl; [|discriminate].
  apply lookupSocket_Some in Hl. destruct Hl as [I _].
  destruct W as [_ Ws]. rewrite Forall_forall in Ws. now apply Ws.
Qed.

Lemma on_newRoom_rooms now u name st :
  Rooms (post (on_newRoom now u name st)) = Rooms st \/
  exists s r, name = JStr s /\
              Rooms (post (on_newRoom now u name st)) = Rooms st ++ [r] /\
              Room.name r = s.
Proof.
  unfold on_newRoom, Room_exists, Room_create, Room_find_sort_name, io_emit.
  frame_tac; try (left; reflexivity).
  right. eexists. eexists. split; [reflexivity|]. split; reflexivity.
Qed.

Lemma on_newRoom_creates now u s st :
  User.username u <> "" -> trim s <> "" -> ~ In s (map Room.name (Rooms st)) ->
  Rooms (post (on_newRoom now u (JStr s) st)) =
  Rooms st ++ [Room.mk (nextId st) s now (User.username u)].
Proof.
  intros Hu Ht Hn.
  assert (s <> "") as Hs by (intros ->; now apply Ht).
  unfold on_newRoom, Room_exists, Room_create, Room_find_sort_name, io_emit, JStr.
  apply String.eqb_neq in Ht. rewrite Ht. unfold_m.
  rewrite (existsb_name_of_notin Room.name s (Rooms st) Hn). unfold_m.
  rewrite (required_of_neq Hs), (required_of_neq Hu). unfold_m.
  rewrite (existsb_name_of_notin Room.name s (Rooms st) Hn). reflexivity.
Qed.

(** C4, as the code has it: in every reachable state the room names are
    pairwise different as strings and none is empty after trimming; a
    [newRoom] either leaves the rooms alone or appends one room whose name is
    the string received, untrimmed; and it does append that room whenever the
    name is not blank and no room has exactly that name. *)
Theorem C4_room_names :
  forall st, reachable st ->
    NoDup (map Room.name (Rooms st)) /\
    Forall (fun r => trim (Room.name r) <> "") (Rooms st) /\
    forall now id u name,
      userOf id st = Some u ->
      let st' := post (step now (Recv id (newRoom name)) st) in
      (Rooms st' = Rooms st \/
       exists s r, name = JStr s /\ Rooms st' = Rooms st ++ [r] /\ Room.name r = s) /\
      (forall s, name = JStr s -> trim s <> "" -> ~ In s (map Room.name (Rooms st)) ->
         exists r, Rooms st' = Rooms st ++ [r] /\ Room.name r = s /\
                   Room.createdBy r = User.username u).
Proof.
  intros st R. pose proof (reachable_wf R) as W.
  split; [apply W|]. split; [apply W|].
  intros now id u name Hu st'. subst st'.
  rewrite (@step_recv_user now id (newRoom name) st u Hu). cbn [dispatch].
  split; [apply on_newRoom_rooms|].
  intros s -> Ht Hn. eexists. split; [|split].
  - apply on_newRoom_creates; [|assumption|assumption].
    now apply (@userOf_username st id u).
  - reflexivity.
  - reflexivity.
Qed.

Lemma C4_room_names_witness :
  reachable (run initial run_alice_joined) /\
  exists r,
    Rooms (post (step 4%N (Recv "s1" (newRoom (JStr " a "))) (run initial run_alice_joined))) =
    Rooms (run initial run_alice_joined) ++ [r] /\
    Room.name r = " a " /\
    Room.createdBy r = "alice".
Proof.
  assert (reachable (run initial run_alice_joined)) as R by (exists run_alice_joined; reflexivity).
  split; [exact R|].
  destruct (@C4_room_names _ R) as [_ [_ H]].
  destruct (H 4%N "s1" (User.mk 0%N "alice" "secret" None) (JStr " a ") eq_refl) as [_ H2].
  apply (H2 " a " eq_refl).
  - vm_compute. discriminate.
  - vm_compute. tauto.
Defined.

(** C4, as the spec states it, fails twice: [newRoom(" a ")] stores the name
    with its spaces, not the trimmed name; and [newRoom("a")] after it stores
    a second room, whose name is the same after trimming. *)
Lemma C4_counterexample :
  let st1 := run (run initial run_alice_joined) [(4%N, Recv "s1" (newRoom (JStr " a ")))] in
  let st2 := run st1 [(5%N, Recv "s1" (newRoom (JStr "a")))] in
  map Room.name (Rooms st1) = [" a "] /\
  " a " <> trim " a " /\
  map Room.name (Rooms st2) = [" a "; "a"] /\
  trim " a " = trim "a".
Proof. vm_compute. repeat split. discriminate. Qed.

Lemma get_index_lobby now uid u st :
  Rooms st = [] ->
  find (fun u => (User._id u =? uid)%N) (Users st) = Some u ->
  User.username u <> "" ->
  get_index now (Some uid) st =
  let lobby := Room.mk (nextId st) "lobby" now (User.username u) in
  (Ok tt, bumpId (setRooms st [lobby]), [Respond (renderIndex u [lobby])]).
Proof.
  intros Hr Hf Hu.
  unfold get_index, deserializeUser, User_findById, Room_find_sort_name, Room_create.
  unfold_m. rewrite Hf, Hr. unfold_m.
  rewrite (required_of_neq Hu). unfold_m. rewrite Hr. reflexivity.
Qed.

(** C8: when the directory is empty, the room-list request of a user
    creates one room, named "lobby" and attributed to that user, and the
    list rendered for the user is that room alone. *)
Theorem C8_lobby_created :
  forall st, reachable st ->
    Rooms st = [] ->
    forall now uid u,
      find (fun u => (User._id u =? uid)%N) (Users st) = Some u ->
      let r := step now (GetIndex (Some uid)) st in
      exists lobby,
        Rooms (post r) = [lobby] /\
        Room.name lobby = "lobby" /\
        Room.createdBy lobby = User.username u /\
        out r = [Respond (renderIndex u [lobby])] /\
        result r = Ok tt.
Proof.
  intros st R Hr now uid u Hf r. subst r. cbn [step].
  pose proof (reachable_wf R) as W.
  assert (User.username u <> "") as Hu.
  { apply find_some in Hf. destruct Hf as [I _].
    destruct W as [Wu]. rewrite Forall_forall in Wu. now apply Wu. }
  rewrite (get_index_lobby now uid st Hr Hf Hu).
  eexists. repeat split.
Qed.

Lemma C8_lobby_created_witness :
  reachable (run initial run_alice_signed_up) /\
  Rooms (run initial run_alice_signed_up) = [] /\
  exists lobby,
    Rooms (post (step 2%N (GetIndex (Some 0%N)) (run initial run_alice_signed_up))) = [lobby] /\
    Room.name lobby = "lobby" /\
    Room.createdBy lobby = "alice".
Proof.
  assert (reachable (run initial run_alice_signed_up)) as R by (exists run_alice_signed_up; reflexivity).
  split; [exact R|]. split; [reflexivity|].
  destruct (@C8_lobby_created _ R eq_refl 2%N 0%N (User.mk 0%N "alice" "secret" None) eq_refl)
    as [lobby [H1 [H2 [H3 _]]]].
  exists lobby. repeat split; assumption.
Defined.

(** ** The message log (C5, C6) *)

Lemma find_replaceFirst {A} (p : A -> bool) (y : A) (l : list A) (x : A) :
  p y = true -> find p l = Some x -> find p (replaceFirst p y l) = Some y.
Proof.
  intros Hy. induction l as [|a l IH]; simpl; [discriminate|].
  destruct (p a) eqn:E; simpl.
  - intros _. now rewrite Hy.
  - rewrite E. exact IH.
Qed.

Lemma on_seen_present u oid m st :
  find (byId oid) (Messages st) = Some m ->
  existsb (String.eqb (User.username u)) (Message.seenBy m) = true ->
  on_seen u (Some (IdOf oid)) st = (Ok tt, st, []).
Proof.
  intros Hf He. unfold on_seen, Message_findById. unfold_m.
  unfold byId in Hf. rewrite Hf, He. reflexivity.
Qed.

Lemma on_seen_absent u oid m st :
  find (byId oid) (Messages st) = Some m ->
  existsb (String.eqb (User.username u)) (Message.seenBy m) = false ->
  on_seen u (Some (IdOf oid)) st =
  let m' := Message.withSeenBy m (Message.seenBy m ++ [User.username u]) in
  (Ok tt,
   setMessages st (replaceFirst (byId (Message._id m)) m' (Messages st)),
   emitAll (seenUpdate (IdOf oid) (Message.seenBy m')) (recipients [AStr (Message.room m)] None st)).
Proof.
  intros Hf He. unfold on_seen, Message_findById, Message_save, io_to_emit. unfold_m.
  unfold byId in Hf. rewrite Hf, He. reflexivity.
Qed.

(** C5: on a message of the log, two [seen] events of the same viewer (from
    one connection or from two connections of that user) leave the viewer's
    username once in [seenBy]; the second one changes nothing and sends
    nothing; the first one sends the [seenUpdate] to the room of the message
    when the viewer was not yet in [seenBy], and is itself without effect
    when the viewer was. *)
Theorem C5_seen_idempotent :
  forall st, reachable st ->
  forall now1 now2 id1 id2 u1 u2 oid m,
    userOf id1 st = Some u1 ->
    userOf id2 st = Some u2 ->
    User.username u1 = User.username u2 ->
    find (byId oid) (Messages st) = Some m ->
    let viewer := User.username u1 in
    let r1 := step now1 (Recv id1 (seen (Some (IdOf oid)))) st in
    let r2 := step now2 (Recv id2 (seen (Some (IdOf oid)))) (post r1) in
    (exists m', find (byId oid) (Messages (post r2)) = Some m' /\
                count_occ string_dec (Message.seenBy m') viewer = 1%nat) /\
    r2 = (Ok tt, post r1, []) /\
    (~ In viewer (Message.seenBy m) ->
       out r1 = emitAll (seenUpdate (IdOf oid) (Message.seenBy m ++ [viewer]))
                  (recipients [AStr (Message.room m)] None st)) /\
    (In viewer (Message.seenBy m) -> r1 = (Ok tt, st, [])).
Proof.
  intros st R now1 now2 id1 id2 u1 u2 oid m Hu1 Hu2 Hsame Hf viewer r1 r2.
  pose proof (reachable_wf R) as W.
  assert (Message._id m = oid) as Hid.
  { apply find_some in Hf. destruct Hf as [_ E]. now apply N.eqb_eq in E. }
  assert (NoDup (Message.seenBy m)) as Hnd.
  { apply find_some in Hf. destruct Hf as [I _].
    destruct W as [_ _ _ _ _ _ _ Ws]. rewrite Forall_forall in Ws. now apply Ws. }
  subst r2 r1 viewer.
  rewrite (@step_recv_user now1 id1 (seen (Some (IdOf oid))) st u1 Hu1). cbn [dispatch].
  destruct (existsb (String.eqb (User.username u1)) (Message.seenBy m)) eqn:He.
  - (* the viewer is in seenBy already *)
    rewrite (on_seen_present u1 oid st Hf He). cbn [post fst snd].
    rewrite (@step_recv_user now2 id2 (seen (Some (IdOf oid))) st u2 Hu2). cbn [dispatch].
    assert (existsb (String.eqb (User.username u2)) (Message.seenBy m) = true) as He2
      by now rewrite <- Hsame.
    rewrite (on_seen_present u2 oid st Hf He2). cbn [post fst snd].
    apply existsb_eqb_true in He.
    split; [|split; [reflexivity|split; [intros Hn; now elim Hn|reflexivity]]].
    exists m. split; [assumption|].
    now apply NoDup_count_occ'.
  - (* the first event adds the viewer *)
    rewrite (on_seen_absent u1 oid st Hf He). cbn zeta. cbn [post fst snd out].
    set (m' := Message.withSeenBy m (Message.seenBy m ++ [User.username u1])).
    set (st1 := setMessages st (replaceFirst (byId (Message._id m)) m' (Messages st))).
    assert (userOf id2 st1 = Some u2) as Hu2' by exact Hu2.
    assert (find (byId oid) (Messages st1) = Some m') as Hf1.
    { subst st1. simpl. rewrite Hid. apply find_replaceFirst with m; [|assumption].
      unfold byId. simpl. rewrite Hid. apply N.eqb_refl. }
    assert (existsb (String.eqb (User.username u2)) (Message.seenBy m') = true) as He1.
    { subst m'. simpl. rewrite existsb_app. simpl.
      rewrite Hsame, String.eqb_refl. now rewrite orb_true_r. }
    rewrite (@step_recv_user now2 id2 (seen (Some (IdOf oid))) st1 u2 Hu2'). cbn [dispatch].
    rewrite (on_seen_present u2 oid st1 Hf1 He1). cbn [post fst snd].
    apply existsb_eqb_false in He.
    split; [|split; [reflexivity|split; [reflexivity|intros Hi; now elim He]]].
    exists m'. split; [assumption|].
    subst m'. simpl. rewrite count_occ_app. simpl.
    destruct (string_dec (User.username u1) (User.username u1)) as [_|N]; [|now elim N].
    apply (count_occ_not_In string_dec) in He. rewrite He. reflexivity.
Qed.

Lemma C5_seen_idempotent_witness :
  reachable (run initial run_alice_wrote) /\
  userOf "s2" (run initial run_alice_wrote) = Some bob /\
  find (byId 2%N) (Messages (run initial run_alice_wrote)) = Some hi /\
  let r1 := step 8%N (Recv "s2" (seen (Some (IdOf 2%N)))) (run initial run_alice_wrote) in
  step 9%N (Recv "s2" (seen (Some (IdOf 2%N)))) (post r1) = (Ok tt, post r1, []).
Proof.
  assert (reachable (run initial run_alice_wrote)) as R
    by (exists run_alice_wrote; reflexivity).
  split; [exact R|]. split; [reflexivity|]. split; [reflexivity|].
  exact (proj1 (proj2 (@C5_seen_idempotent _ R 8%N 9%N "s2" "s2" bob bob 2%N hi
                         eq_refl eq_refl eq_refl eq_refl))).
Defined.

Lemma on_deleteMessage_other u oid m st :
  find (byId oid) (Messages st) = Some m ->
  Message.user m <> User.username u ->
  on_deleteMessage u (IdOf oid) st = (Ok tt, st, []).
Proof.
  intros Hf Hn. unfold on_deleteMessage, Message_findById. unfold_m.
  unfold byId in Hf. rewrite Hf.
  apply String.eqb_neq in Hn. rewrite Hn. reflexivity.
Qed.

Lemma on_deleteMessage_effect u mid st :
  let r := on_deleteMessage u mid st in
  post r <> st \/ out r <> [] ->
  exists m, result (Message_findById mid st) = Ok (Some m) /\
            Message.user m = User.username u.
Proof.
  unfold on_deleteMessage, Message_findById.
  destruct mid as [|oid|]; unfold_m; try (intros [H|H]; now elim H).
  destruct (find _ (Messages st)) as [m|]; unfold_m; try (intros [H|H]; now elim H).
  destruct (Message.user m =? User.username u) eqn:E; unfold_m;
    try (intros [H|H]; now elim H).
  intros _. exists m. split; [reflexivity|]. now apply String.eqb_eq.
Qed.

(** C6: a [deleteMessage] for a message of the log whose author is not the
    requester leaves the whole state as it is, the message with it, and sends
    nothing; and whenever a [deleteMessage] changes the state or sends
    anything, the message was found and the requester is its author. *)
Theorem C6_delete_by_author_only :
  forall now st id u,
    userOf id st = Some u ->
    (forall oid m,
        find (byId oid) (Messages st) = Some m ->
        Message.user m <> User.username u ->
        step now (Recv id (deleteMessage (IdOf oid))) st = (Ok tt, st, [])) /\
    (forall mid,
        let r := step now (Recv id (deleteMessage mid)) st in
        post r <> st \/ out r <> [] ->
        exists m, result (Message_findById mid st) = Ok (Some m) /\
                  Message.user m = User.username u).
Proof.
  intros now st id u Hu. split.
  - intros oid m Hf Hn.
    rewrite (@step_recv_user now id (deleteMessage (IdOf oid)) st u Hu). cbn [dispatch].
    now apply on_deleteMessage_other with m.
  - intros mid r. subst r.
    rewrite (@step_recv_user now id (deleteMessage mid) st u Hu). cbn [dispatch].
    apply on_deleteMessage_effect.
Qed.

Lemma C6_delete_by_author_only_witness :
  userOf "s2" (run initial run_alice_wrote) = Some bob /\
  step 8%N (Recv "s2" (deleteMessage (IdOf 2%N))) (run initial run_alice_wrote) =
  (Ok tt, run initial run_alice_wrote, []).
Proof.
  split; [reflexivity|].
  refine (proj1 (@C6_delete_by_author_only 8%N (run initial run_alice_wrote) "s2" bob eq_refl)
            2%N hi eq_refl _).
  vm_compute. discriminate.
Defined.

(** ** Typing indicators (C7) *)

Lemma on_typing_out id u room st :
  truthy room = true ->
  on_typing id u room st =
  (Ok tt, st, emitAll (typing (User.username u)) (recipients (targets room) (Some id) st)).
Proof.
  intros Ht. unfold on_typing, socket_to_emit. rewrite Ht. reflexivity.
Qed.

Lemma inRooms_member (a : Atom) (rooms : list Atom) (s : Socket) :
  In a rooms -> hasRoom a (srooms s) = true -> inRooms rooms s = true.
Proof.
  intros I H. unfold inRooms. destruct rooms as [|b l]; [reflexivity|].
  apply existsb_exists. now exists a.
Qed.

Lemma recipients_except rooms id st s :
  In s (recipients rooms (Some id) st) <->
  In s (sockets st) /\ inRooms rooms s = true /\ hasRoom (AStr id) (srooms s) = false.
Proof.
  unfold recipients. rewrite filter_In, andb_true_iff, negb_true_iff. simpl. tauto.
Qed.

(** C7, evaluated at the failing input: once a connection has joined a
    room, and so has left the room of its own id, by which [socket.to] knows
    the sender, a [typing] event it sends for that room is delivered to the
    sender's own connection as well, where the claim has the sender never
    receive it. *)
Theorem C7_typing_reaches_sender_after_join :
  forall now1 now2 st id u s,
    userOf id st = Some u ->
    s <> "" -> s <> id ->
    let st1 := post (step now1 (Recv id (joinRoom (JStr s))) st) in
    let r := step now2 (Recv id (typingEv (JStr s))) st1 in
    result r = Ok tt /\
    In (Emit id (typing (User.username u))) (out r).
Proof.
  intros now1 now2 st id u s Hu Hs Hid st1 r. subst r st1.
  rewrite (@step_recv_user now1 id (joinRoom (JStr s)) st u Hu). cbn [dispatch].
  unfold userOf in Hu. destruct (lookupSocket id st) as [sk|] eqn:Hl; [|discriminate].
  pose proof (@on_joinRoom_roomsOf id (JStr s) st sk Hl) as Hl1.
  set (st1 := post (on_joinRoom id (JStr s) st)) in *.
  assert (userOf id st1 = Some u) as Hu1 by (unfold userOf; now rewrite Hl1).
  rewrite (@step_recv_user now2 id (typingEv (JStr s)) st1 u Hu1). cbn [dispatch].
  assert (truthy (JStr s) = true) as Ht.
  { simpl. apply negb_true_iff. now apply String.eqb_neq. }
  rewrite (@on_typing_out id u (JStr s) st1 Ht). cbn [result out fst snd].
  split; [reflexivity|].
  apply lookupSocket_Some in Hl. destruct Hl as [_ Hsid].
  apply lookupSocket_Some in Hl1. destruct Hl1 as [Hin _].
  unfold emitAll. apply in_map_iff.
  exists (mkSocket (sid sk) (suser sk) (fold_left addRoom (targets (JStr s)) [])).
  split; [simpl; now rewrite Hsid|].
  apply recipients_except. split; [exact Hin|].
  simpl. rewrite String.eqb_refl. split; [reflexivity|].
  apply not_eq_sym in Hid. apply String.eqb_neq in Hid. now rewrite Hid.
Qed.

Lemma C7_typing_reaches_sender_after_join_witness :
  let st := run initial (run_alice_signed_up ++ [(2%N, Connect "s1" (Some 0%N))]) in
  userOf "s1" st = Some alice /\
  let st1 := post (step 3%N (Recv "s1" (joinRoom (JStr "general"))) st) in
  In (Emit "s1" (typing "alice"))
    (out (step 4%N (Recv "s1" (typingEv (JStr "general"))) st1)).
Proof.
  intros st. split; [reflexivity|].
  refine (proj2 (@C7_typing_reaches_sender_after_join 3%N 4%N st "s1" alice "general"
                   eq_refl _ _)); discriminate.
Defined.

(** ** Deleting a room keeps its messages (C9) *)

Lemma on_deleteRoom_post u name st :
  post (on_deleteRoom u name st) =
  setRooms st (Rooms (post (on_deleteRoom u name st))).
Proof.
  unfold on_deleteRoom, Room_findOne, Room_deleteOne, Room_find_sort_name, io_emit.
  frame_tac; now destruct st.
Qed.


Lemma on_newRoom_messages now u name st :
  Messages (post (on_newRoom now u name st)) = Messages st.
Proof.
  unfold on_newRoom, Room_exists, Room_create, Room_find_sort_name, io_emit.
  frame_tac.
Qed.


Lemma on_joinRoom_out id room st :
  out (on_joinRoom id room st) = [Emit id (history (historyOf room (Messages st)))].
Proof. reflexivity. Qed.



(** ** The text of a message (C10) *)

Lemma numberToString_nonempty (n : SafeInt) : numberToString n <> "".
Proof.
  unfold numberToString, NilZero.string_of_int, NilZero.string_of_uint.
  destruct (Z.to_int (intValue n)) as [d|d]; [|discriminate].
  destruct d; simpl; discriminate.
Qed.

Lemma castString_truthy (a : Atom) :
  truthyAtom a = true -> exists r, castString a = Some r /\ r <> "".
Proof.
  destruct a as [| |b|n|s]; simpl; try discriminate.
  - intros ->. exists "true". split; [reflexivity|discriminate].
  - intros _. exists (numberToString n). split; [reflexivity|apply numberToString_nonempty].
  - intros H. exists s. split; [reflexivity|]. apply negb_true_iff in H.
    now apply String.eqb_neq.
Qed.

Lemma on_chatMessage_effect now u payload st :
  let r := on_chatMessage now u payload st in
  (Messages (post r) = Messages st /\ out r = []) \/
  exists room t m,
    payload = Some (room, JStr t) /\ trim t <> "" /\
    Messages (post r) = Messages st ++ [m] /\
    Message.text m = t /\
    out r = emitAll (message m) (recipients (targets room) None st).
Proof.
  unfold on_chatMessage, Message_create, io_to_emit.
  frame_tac; try (left; split; reflexivity).
  right. eexists. eexists. eexists.
  split; [reflexivity|]. split; [now apply String.eqb_neq|].
  split; [reflexivity|]. split; reflexivity.
Qed.

Lemma on_chatMessage_accepts now u a t st :
  User.username u <> "" -> truthyAtom a = true -> trim t <> "" ->
  exists r,
    castString a = Some r /\
    on_chatMessage now u (Some (JAtom a, JStr t)) st =
    let m := Message.mk (nextId st) r (User.username u) (User.avatar u) t now [] in
    (Ok tt, bumpId (setMessages st (Messages st ++ [m])),
     emitAll (message m) (recipients [a] None st)).
Proof.
  intros Hu Ha Ht.
  destruct (castString_truthy a Ha) as [r [Hc Hr]].
  exists r. split; [assumption|].
  assert (t <> "") as Ht' by (intros ->; now apply Ht).
  unfold on_chatMessage, Message_create, io_to_emit, JStr, truthy.
  rewrite Ha. apply String.eqb_neq in Ht. rewrite Ht. cbn [negb].
  rewrite Hc. rewrite (required_of_neq Hr), (required_of_neq Hu), (required_of_neq Ht').
  reflexivity.
Qed.

(** C10: a [chatMessage] either leaves the log alone and sends nothing, or
    its text is a string that is not blank and it appends one message whose
    text is that string as received, which is also the message broadcast to
    the room; and it does so for every truthy primitive room and every text
    that is not blank.  The trimmed text is used for the test only. *)
Theorem C10_text_stored_untrimmed :
  forall st, reachable st ->
  forall now id u payload,
    userOf id st = Some u ->
    let r := step now (Recv id (chatMessage payload)) st in
    ((Messages (post r) = Messages st /\ out r = []) \/
     exists room t m,
       payload = Some (room, JStr t) /\ trim t <> "" /\
       Messages (post r) = Messages st ++ [m] /\
       Message.text m = t /\
       out r = emitAll (message m) (recipients (targets room) None st)) /\
    (forall a t,
        payload = Some (JAtom a, JStr t) -> truthyAtom a = true -> trim t <> "" ->
        exists m,
          Messages (post r) = Messages st ++ [m] /\
          Message.text m = t /\
          out r = emitAll (message m) (recipients [a] None st) /\
          result r = Ok tt).
Proof.
  intros st R now id u payload Hu r. subst r.
  pose proof (reachable_wf R) as W.
  rewrite (@step_recv_user now id (chatMessage payload) st u Hu). cbn [dispatch].
  split; [apply on_chatMessage_effect|].
  intros a t -> Ha Ht.
  destruct (@on_chatMessage_accepts now u a t st (@userOf_username st id u W Hu) Ha Ht)
    as [r [_ E]].
  rewrite E. cbn zeta. cbn [post out result fst snd].
  eexists. split; [reflexivity|]. split; [reflexivity|]. split; reflexivity.
Qed.

Lemma C10_text_stored_untrimmed_witness :
  reachable (run initial run_both_joined) /\
  userOf "s1" (run initial run_both_joined) = Some alice /\
  trim " hi " <> "" /\
  exists m,
    Messages (post (step 7%N (Recv "s1" (chatMessage (Some (JStr "general", JStr " hi "))))
                      (run initial run_both_joined))) =
    Messages (run initial run_both_joined) ++ [m] /\
    Message.text m = " hi ".
Proof.
  assert (reachable (run initial run_both_joined)) as R by (exists run_both_joined; reflexivity).
  assert (trim " hi " <> "") as T by (vm_compute; discriminate).
  split; [exact R|]. split; [reflexivity|]. split; [exact T|].
  destruct (proj2 (@C10_text_stored_untrimmed _ R 7%N "s1" alice
                     (Some (JStr "general", JStr " hi ")) eq_refl)
              (AStr "general") " hi " eq_refl eq_refl T) as [m [H1 [H2 _]]].
  exists m. split; assumption.
Defined.

(** A stored text with white space at both ends, sent as it is. *)
Example chatMessage_keeps_spaces :
  let r := step 7%N (Recv "s1" (chatMessage (Some (JStr "general", JStr " hi "))))
             (run initial run_both_joined) in
  map Message.text (Messages (post r)) = [" hi "] /\
  out r = [Emit "s1" (message hi); Emit "s2" (message hi)].
Proof. split; reflexivity. Qed.

(** * Further properties of the handlers *)

(** ** Sorted queries *)

Section SortBy.
Context {Doc : Type} (le : Doc -> Doc -> bool).
Hypothesis le_total : forall a b, le a b = true \/ le b a = true.

Lemma insertBy_perm (d : Doc) (docs : list Doc) :
  Permutation (insertBy le d docs) (d :: docs).
Proof.
  induction docs as [|e docs IH]; simpl; [apply Permutation_refl|].
  destruct (le d e); [apply Permutation_refl|].
  apply perm_trans with (e :: d :: docs); [|apply perm_swap].
  now apply perm_skip.
Qed.

Lemma sortBy_perm (docs : list Doc) : Permutation (sortBy le docs) docs.
Proof.
  induction docs as [|d docs IH]; simpl; [constructor|].
  apply perm_trans with (d :: sortBy le docs); [apply insertBy_perm|].
  now apply perm_skip.
Qed.

Lemma insertBy_head (d e : Doc) (docs : list Doc) :
  le e d = true ->
  HdRel (fun a b => le a b = true) e docs ->
  HdRel (fun a b => le a b = true) e (insertBy le d docs).
Proof.
  intros Hed Hhd. destruct docs as [|f docs]; simpl; [now constructor|].
  destruct (le d f); constructor; [assumption|].
  now inversion Hhd.
Qed.

Lemma insertBy_sorted (d : Doc) (docs : list Doc) :
  Sorted (fun a b => le a b = true) docs ->
  Sorted (fun a b => le a b = true) (insertBy le d docs).
Proof.
  induction 1 as [|e docs Hs IH Hhd]; simpl.
  - repeat constructor.
  - destruct (le d e) eqn:E.
    + constructor; [now constructor|]. now constructor.
    + constructor; [assumption|].
      apply insertBy_head; [|assumption].
      destruct (le_total d e) as [H|H]; [congruence|exact H].
Qed.

Lemma sortBy_sorted (docs : list Doc) : Sorted (fun a b => le a b = true) (sortBy le docs).
Proof.
  induction docs as [|d docs IH]; simpl; [constructor|].
  now apply insertBy_sorted.
Qed.
End SortBy.

Lemma Room_find_sort_name_spec st :
  exists rooms,
    Room_find_sort_name st = (Ok rooms, st, []) /\
    Sorted byName rooms /\ Permutation rooms (Rooms st).
Proof.
  eexists. split; [reflexivity|]. split.
  - apply (sortBy_sorted (fun a b => (Room.name a <=? Room.name b)%string)).
    intros a b. apply String.leb_total.
  - apply sortBy_perm.
Qed.

Lemma historyOf_sorted room ms : Sorted byTime (historyOf room ms).
Proof.
  unfold historyOf.
  apply (sortBy_sorted (fun a b => (Message.time a <=? Message.time b)%N)).
  intros a b. rewrite !N.leb_le. lia.
Qed.

Lemma historyOf_In room ms m :
  In m (historyOf room ms) <-> In m ms /\ matchString room (Message.room m) = true.
Proof.
  unfold historyOf. split.
  - intros H. apply (Permutation_in _ (sortBy_perm _ _)) in H.
    now apply filter_In in H.
  - intros H. apply (Permutation_in _ (Permutation_sym (sortBy_perm _ _))).
    now apply filter_In.
Qed.

(** ** Sign-up, credentials and sessions *)

Lemma find_username_none (un : string) (us : list User.t) :
  existsb (fun u => User.username u =? un) us = false ->
  find (fun u => User.username u =? un) us = None.
Proof.
  induction us as [|u us IH]; simpl; [reflexivity|].
  intros H. apply orb_false_iff in H. destruct H as [-> H]. now apply IH.
Qed.

Lemma find_snoc_new {A} (p : A -> bool) (l : list A) (x : A) :
  find p l = None -> p x = true -> find p (l ++ [x]) = Some x.
Proof.
  induction l as [|a l IH]; simpl; intros Hn Hx.
  - now rewrite Hx.
  - destruct (p a); [discriminate|]. now apply IH.
Qed.

Lemma post_signup_succeeds un pw avatar st :
  un <> "" -> pw <> "" -> ~ In un (map User.username (Users st)) ->
  post_signup (Some un) (Some pw) avatar st =
  (Ok tt,
   bumpId (setUsers st (Users st ++ [User.mk (nextId st) un pw avatar])),
   [Respond (redirect "/login?registered=1")]).
Proof.
  intros Hu Hp Hn. unfold post_signup, try_catch, User_create.
  rewrite (required_of_neq Hu), (required_of_neq Hp). unfold_m.
  now rewrite (existsb_name_of_notin User.username un (Users st) Hn).
Qed.

(** X1: a sign-up either fails, whatever the reason (a missing or empty
    username or password, or a username that is taken), and then changes
    nothing and renders the form with the one message "Username already
    exists"; or it appends the user with the fields of the form under a
    fresh id and redirects to the login page.  It succeeds exactly when
    username and password are non-empty strings and the username is free. *)
Theorem X1_signup_outcomes :
  forall username password avatar st,
    let r := post_signup username password avatar st in
    (r = (Ok tt, st, [Respond (renderSignup (Some "Username already exists"))]) \/
     exists un pw,
       username = Some un /\ password = Some pw /\
       un <> "" /\ pw <> "" /\ ~ In un (map User.username (Users st)) /\
       r = (Ok tt,
            bumpId (setUsers st (Users st ++ [User.mk (nextId st) un pw avatar])),
            [Respond (redirect "/login?registered=1")])) /\
    (forall un pw,
        username = Some un -> password = Some pw ->
        un <> "" -> pw <> "" -> ~ In un (map User.username (Users st)) ->
        Users (post r) = Users st ++ [User.mk (nextId st) un pw avatar]).
Proof.
  intros username password avatar st r. subst r. split.
  - unfold post_signup, try_catch, User_create.
    destruct username as [un|], password as [pw|]; unfold_m; try (left; reflexivity).
    destruct (required un) eqn:Hu; unfold_m; [|left; reflexivity].
    destruct (required pw) eqn:Hp; unfold_m; [|left; reflexivity].
    destruct (existsb _ (Users st)) eqn:He; unfold_m; [left; reflexivity|].
    right. exists un, pw. repeat split; try reflexivity.
    + now apply required_true.
    + now apply required_true.
    + now apply existsb_name_false.
  - intros un pw -> -> Hu Hp Hn.
    now rewrite (@post_signup_succeeds un pw avatar st Hu Hp Hn).
Qed.

Lemma X1_signup_outcomes_witness :
  Users (post (post_signup (Some "carol") (Some "pw") None (run initial run_alice_joined))) =
  Users (run initial run_alice_joined) ++ [User.mk 1%N "carol" "pw" None].
Proof.
  refine (proj2 (@X1_signup_outcomes (Some "carol") (Some "pw") None
                   (run initial run_alice_joined)) "carol" "pw" eq_refl eq_refl _ _ _).
  - discriminate.
  - discriminate.
  - vm_compute. intuition discriminate.
Defined.

(** X2: the verify callback of the login strategy never changes the state;
    it answers with a user only if that user is stored under the username
    and the password given is the stored one; and right after a successful
    sign-up the same credentials are accepted and any other password is
    refused. *)
Theorem X2_login_after_signup :
  forall st,
    (forall un pw,
        post (localStrategy un pw st) = st /\ out (localStrategy un pw st) = [] /\
        forall u, result (localStrategy un pw st) = Ok (Some u) ->
                  In u (Users st) /\ User.username u = un /\ User.password u = pw) /\
    (forall un pw avatar,
        un <> "" -> pw <> "" -> ~ In un (map User.username (Users st)) ->
        let st' := post (post_signup (Some un) (Some pw) avatar st) in
        result (localStrategy un pw st') = Ok (Some (User.mk (nextId st) un pw avatar)) /\
        forall pw', pw' <> pw -> result (localStrategy un pw' st') = Ok None).
Proof.
  intros st. split.
  - intros un pw. unfold localStrategy, User_findOne, verify. unfold_m.
    destruct (find _ (Users st)) as [u|] eqn:Hf; unfold_m.
    + destruct (User.password u =? pw) eqn:Hp; unfold_m;
        (split; [reflexivity|split; [reflexivity|]]); intros u' E; [|discriminate].
      injection E as <-. apply find_some in Hf. destruct Hf as [I Hu].
      apply String.eqb_eq in Hu, Hp. tauto.
    + split; [reflexivity|split; [reflexivity|]]. discriminate.
  - intros un pw avatar Hu Hp Hn st'.
    assert (Users st' = Users st ++ [User.mk (nextId st) un pw avatar]) as HU.
    { subst st'. now rewrite (@post_signup_succeeds un pw avatar st Hu Hp Hn). }
    assert (find (fun u => User.username u =? un) (Users st') =
            Some (User.mk (nextId st) un pw avatar)) as Hf.
    { rewrite HU. apply find_snoc_new.
      - apply find_username_none. now apply existsb_name_of_notin.
      - simpl. apply String.eqb_refl. }
    unfold localStrategy, User_findOne, verify. unfold_m. rewrite Hf. simpl.
    split.
    + now rewrite String.eqb_refl.
    + intros pw' Hne. apply not_eq_sym in Hne. apply String.eqb_neq in Hne.
      now rewrite Hne.
Qed.

Lemma X2_login_after_signup_witness :
  let st' := post (post_signup (Some "carol") (Some "pw") None (run initial run_alice_joined)) in
  result (localStrategy "carol" "pw" st') = Ok (Some (User.mk 1%N "carol" "pw" None)).
Proof.
  refine (proj1 (proj2 (@X2_login_after_signup (run initial run_alice_joined))
                   "carol" "pw" None _ _ _)).
  - discriminate.
  - discriminate.
  - vm_compute. intuition discriminate.
Defined.

Ltac users_tac :=
  frame_tac; split; simpl; try reflexivity; try lia.

Lemma dispatch_users now id u ev st :
  Users (post (dispatch now id u ev st)) = Users st /\
  (nextId st <= nextId (post (dispatch now id u ev st)))%N.
Proof.
  destruct ev; cbn [dispatch].
  - unfold on_newRoom, Room_exists, Room_create, Room_find_sort_name, io_emit. users_tac.
  - unfold on_deleteRoom, Room_findOne, Room_deleteOne, Room_find_sort_name, io_emit.
    users_tac.
  - unfold on_joinRoom, socket_leaveAll, socket_join, Message_find_sort_time, socket_emit.
    users_tac.
  - unfold on_chatMessage, Message_create, io_to_emit. users_tac.
  - unfold on_deleteMessage, Message_findById, Message_deleteOne, io_to_emit. users_tac.
  - unfold on_typing, socket_to_emit. users_tac.
  - unfold on_stopTyping, socket_to_emit. users_tac.
  - unfold on_seen, Message_findById, Message_save, io_to_emit. users_tac.
Qed.

(** Only a sign-up adds a user, under the next id and a free name; no step
    removes or changes one, and the next id never goes down. *)
Lemma step_users now i st :
  (Users (post (step now i st)) = Users st \/
   exists un pw av,
     Users (post (step now i st)) = Users st ++ [User.mk (nextId st) un pw av] /\
     nextId (post (step now i st)) = N.succ (nextId st) /\
     ~ In un (map User.username (Users st))) /\
  (nextId st <= nextId (post (step now i st)))%N.
Proof.
  destruct i as [u p a|uid|id uid|id ev|id].
  - unfold step, post_signup, try_catch, User_create.
    frame_tac; split; simpl; try lia; try (left; reflexivity).
    right. eexists. eexists. eexists. split; [reflexivity|]. split; [reflexivity|].
    now apply existsb_name_false.
  - unfold step, get_index, deserializeUser, User_findById, Room_find_sort_name, Room_create.
    frame_tac; split; simpl; try lia; left; reflexivity.
  - unfold step, on_connection, socket_disconnect, User_findById, setUser,
      Room_find_sort_name, socket_emit.
    frame_tac; split; simpl; try lia; left; reflexivity.
  - destruct (userOf id st) as [u|] eqn:Hu.
    + rewrite (@step_recv_user now id ev st u Hu).
      destruct (dispatch_users now id u ev st) as [H1 H2]. split; [now left|assumption].
    + rewrite (@step_recv_dropped now id ev st Hu). unfold_m. split; [now left|lia].
  - unfold step, socket_disconnect. unfold_m. split; [now left|lia].
Qed.

Lemma step_usersOk now i st : usersOk st -> usersOk (post (step now i st)).
Proof.
  unfold usersOk. intros [Hn [Hi Hf]].
  destruct (step_users now i st) as [[E|[un [pw [av [E [Hs Hfree]]]]]] Hle]; rewrite E.
  - split; [assumption|]. split; [assumption|].
    revert Hf. apply Forall_impl. intros u H. lia.
  - rewrite !map_app. simpl. split; [now apply NoDup_snoc|]. split.
    + apply NoDup_snoc; [assumption|]. intros I.
      apply in_map_iff in I. destruct I as [u [Eu I]].
      rewrite Forall_forall in Hf. apply Hf in I. lia.
    + apply Forall_snoc.
      * revert Hf. apply Forall_impl. intros u H. lia.
      * simpl. lia.
Qed.

Lemma run_usersOk tr : forall st, usersOk st -> usersOk (run st tr).
Proof.
  induction tr as [|[now i] tr IH]; intros st H; simpl; [assumption|].
  apply IH. now apply step_usersOk.
Qed.

Lemma run_keeps_users tr : forall st u, In u (Users st) -> In u (Users (run st tr)).
Proof.
  induction tr as [|[now i] tr IH]; intros st u H; simpl; [assumption|].
  apply IH. simpl.
  destruct (step_users now i st) as [[E|[un [pw [av [E _]]]]] _]; rewrite E.
  - assumption.
  - apply in_or_app. now left.
Qed.

Lemma find_by_id (u : User.t) (us : list User.t) :
  NoDup (map User._id us) -> In u us ->
  find (fun x => (User._id x =? User._id u)%N) us = Some u.
Proof.
  induction us as [|x us IH]; simpl; intros Hn HI; [contradiction|].
  inversion Hn as [|? ? Hx Hus]; subst.
  destruct HI as [E|I].
  - subst x. now rewrite N.eqb_refl.
  - destruct (User._id x =? User._id u)%N eqn:Heq; [|now apply IH].
    apply N.eqb_eq in Heq. elim Hx. rewrite Heq. now apply in_map.
Qed.

(** X3: in every reachable state the users have pairwise different
    usernames and pairwise different ids; and a user, once stored, stays
    stored unchanged through every later run, so that the id kept in the
    session by [serializeUser] is resolved by [deserializeUser] to that very
    user, without any effect. *)
Theorem X3_users_unique_sessions_resolve :
  forall st, reachable st ->
    NoDup (map User.username (Users st)) /\
    NoDup (map User._id (Users st)) /\
    forall u, In u (Users st) ->
      forall tr,
        In u (Users (run st tr)) /\
        deserializeUser (Some (serializeUser u)) (run st tr) =
        (Ok (Some u), run st tr, []).
Proof.
  intros st [tr0 ->].
  assert (usersOk initial) as H0.
  { unfold usersOk, initial. simpl. repeat split; constructor. }
  pose proof (run_usersOk tr0 H0) as [Hn [Hi Hf]].
  split; [assumption|]. split; [assumption|].
  intros u Hu tr.
  pose proof (run_keeps_users tr _ _ Hu) as Hu'.
  split; [assumption|].
  pose proof (run_usersOk tr (run_usersOk tr0 H0)) as [_ [Hi' _]].
  unfold deserializeUser, serializeUser, User_findById. unfold_m.
  now rewrite (@find_by_id u _ Hi' Hu').
Qed.

Lemma X3_users_unique_sessions_resolve_witness :
  reachable (run initial run_alice_wrote) /\
  In bob (Users (run initial run_alice_wrote)) /\
  deserializeUser (Some (serializeUser bob))
    (run (run initial run_alice_wrote) [(9%N, Signup (Some "carol") (Some "pw") None)]) =
  (Ok (Some bob),
   run (run initial run_alice_wrote) [(9%N, Signup (Some "carol") (Some "pw") None)], []).
Proof.
  assert (reachable (run initial run_alice_wrote)) as R
    by (exists run_alice_wrote; reflexivity).
  assert (In bob (Users (run initial run_alice_wrote))) as I
    by (vm_compute; tauto).
  split; [exact R|]. split; [exact I|].
  exact (proj2 (proj2 (proj2 (@X3_users_unique_sessions_resolve _ R)) bob I
                  [(9%N, Signup (Some "carol") (Some "pw") None)])).
Defined.

(** ** The index page and the connection *)

Lemma sorted_rooms_nonempty st :
  Rooms st <> [] ->
  sortBy (fun a b => (Room.name a <=? Room.name b)%string) (Rooms st) <> [].
Proof.
  intros Hne E. apply Hne. apply Permutation_nil.
  rewrite <- E. apply sortBy_perm.
Qed.

(** X4: the index page asks for a signed-in user: without a session, or
    with a session whose user is not stored, it redirects to the login page
    and changes nothing; for a stored user and a directory that is not empty
    it changes nothing either (no lobby is made) and renders every room once,
    in ascending order of the names. *)
Theorem X4_index_page :
  forall now st,
    step now (GetIndex None) st = (Ok tt, st, [Respond (redirect "/login")]) /\
    (forall id,
        find (fun u => (User._id u =? id)%N) (Users st) = None ->
        step now (GetIndex (Some id)) st = (Ok tt, st, [Respond (redirect "/login")])) /\
    (forall id u,
        find (fun u => (User._id u =? id)%N) (Users st) = Some u ->
        Rooms st <> [] ->
        exists rooms,
          step now (GetIndex (Some id)) st = (Ok tt, st, [Respond (renderIndex u rooms)]) /\
          Sorted byName rooms /\ Permutation rooms (Rooms st)).
Proof.
  intros now st. split; [reflexivity|]. split.
  - intros id Hf. cbn [step].
    unfold get_index, deserializeUser, User_findById. unfold_m. now rewrite Hf.
  - intros id u Hf Hne. cbn [step].
    destruct (Room_find_sort_name_spec st) as [rooms [E [Hs Hp]]].
    exists rooms. split; [|split; assumption].
    unfold get_index, deserializeUser, User_findById. unfold_m. rewrite Hf. unfold_m.
    unfold Room_find_sort_name in *. unfold_m. injection E as <-.
    pose proof (@sorted_rooms_nonempty st Hne) as Hn.
    destruct (sortBy _ (Rooms st)) as [|r rs]; [now elim Hn|reflexivity].
Qed.

Lemma X4_index_page_witness :
  let st := run initial (run_alice_signed_up ++ [(2%N, GetIndex (Some 0%N))]) in
  find (fun u => (User._id u =? 0)%N) (Users st) = Some alice /\
  Rooms st <> [] /\
  post (step 3%N (GetIndex (Some 0%N)) st) = st.
Proof.
  intros st.
  assert (find (fun u => (User._id u =? 0)%N) (Users st) = Some alice) as Hf by reflexivity.
  assert (Rooms st <> []) as Hne by (vm_compute; discriminate).
  split; [exact Hf|]. split; [exact Hne|].
  destruct (proj2 (proj2 (@X4_index_page 3%N st)) 0%N alice Hf Hne) as [rooms [E _]].
  exact (f_equal (fun r => snd (fst r)) E).
Defined.

Lemma updSocket_absent (id : SocketId) (f : Socket -> Socket) (l : list Socket) :
  ~ In id (map sid l) -> updSocket id f l = l.
Proof.
  unfold updSocket. induction l as [|s l IH]; simpl; intros H; [reflexivity|].
  destruct (sid s =? id) eqn:E.
  - apply String.eqb_eq in E. tauto.
  - f_equal. apply IH. tauto.
Qed.

(** X5: when a fresh socket connects under a session whose user is stored,
    the socket is registered with that user's profile and sits in the room
    of its own id, the documents are untouched, and the one thing sent is
    the room list (every room once, in ascending order of the names), to the
    new socket only.  When the user of the session is not stored, the
    handler throws on the profile it did not find: the socket stays
    connected without handlers, nothing is sent and its events are dropped. *)
Theorem X5_connection_sends_room_list :
  forall now st id uid,
    lookupSocket id st = None ->
    (forall u,
        find (fun u => (User._id u =? uid)%N) (Users st) = Some u ->
        exists rooms,
          step now (Connect id (Some uid)) st =
          (Ok tt, setSockets st (sockets st ++ [mkSocket id (Some u) [AStr id]]),
           [Emit id (roomList rooms)]) /\
          Sorted byName rooms /\ Permutation rooms (Rooms st)) /\
    (find (fun u => (User._id u =? uid)%N) (Users st) = None ->
     let r := step now (Connect id (Some uid)) st in
     r = (Throw TypeError, setSockets st (sockets st ++ [mkSocket id None [AStr id]]), []) /\
     forall now' ev, step now' (Recv id ev) (post r) = (Ok tt, post r, [])).
Proof.
  intros now st id uid Hl.
  pose proof (@lookupSocket_None id st Hl) as Hn. split.
  - intros u Hf.
    destruct (Room_find_sort_name_spec st) as [rooms [E [Hs Hp]]].
    exists rooms. split; [|split; assumption].
    unfold Room_find_sort_name in E. unfold_m. injection E as <-.
    unfold step, on_connection, User_findById, setUser, Room_find_sort_name, socket_emit.
    unfold_m. rewrite Hl. unfold_m. rewrite Hf. unfold_m.
    unfold updSocket. rewrite map_app. simpl. rewrite String.eqb_refl.
    fold (updSocket id (fun s => mkSocket (sid s) (Some u) (srooms s)) (sockets st)).
    now rewrite (@updSocket_absent id _ (sockets st) Hn).
  - intros Hf r. subst r.
    assert (step now (Connect id (Some uid)) st =
            (Throw TypeError, setSockets st (sockets st ++ [mkSocket id None [AStr id]]), []))
      as E.
    { unfold step, on_connection, User_findById. unfold_m. rewrite Hl. unfold_m.
      now rewrite Hf. }
    rewrite E. split; [reflexivity|].
    intros now' ev. apply step_recv_dropped.
    unfold userOf, lookupSocket, post. simpl.
    unfold lookupSocket in Hl.
    rewrite (@find_snoc_new _ (fun s => sid s =? id) (sockets st)
               (mkSocket id None [AStr id]) Hl (String.eqb_refl id)).
    reflexivity.
Qed.

Lemma X5_connection_sends_room_list_witness :
  let st := run initial (run_alice_signed_up ++ [(2%N, GetIndex (Some 0%N))]) in
  lookupSocket "s1" st = None /\
  exists rooms,
    step 3%N (Connect "s1" (Some 0%N)) st =
    (Ok tt, setSockets st (sockets st ++ [mkSocket "s1" (Some alice) [AStr "s1"]]),
     [Emit "s1" (roomList rooms)]) /\
    Sorted byName rooms /\ Permutation rooms (Rooms st).
Proof.
  intros st. split; [reflexivity|].
  exact (proj1 (@X5_connection_sends_room_list 3%N st "s1" 0%N eq_refl) alice eq_refl).
Defined.

(** ** Creating and deleting rooms *)

Lemma on_newRoom_broadcast now u s st :
  User.username u <> "" -> trim s <> "" -> ~ In s (map Room.name (Rooms st)) ->
  on_newRoom now u (JStr s) st =
  let st' := bumpId (setRooms st (Rooms st ++ [Room.mk (nextId st) s now (User.username u)])) in
  (Ok tt, st',
   emitAll (roomList (sortBy (fun a b => (Room.name a <=? Room.name b)%string) (Rooms st')))
     (sockets st)).
Proof.
  intros Hu Ht Hn.
  assert (s <> "") as Hs by (intros ->; now apply Ht).
  unfold on_newRoom, Room_exists, Room_create, Room_find_sort_name, io_emit, JStr.
  apply String.eqb_neq in Ht. rewrite Ht. unfold_m.
  rewrite (existsb_name_of_notin Room.name s (Rooms st) Hn). unfold_m.
  rewrite (required_of_neq Hs), (required_of_neq Hu). unfold_m.
  rewrite (existsb_name_of_notin Room.name s (Rooms st) Hn). reflexivity.
Qed.

(** X6: a [newRoom] is silent unless it creates a room: with a missing
    name, a blank name or a name that a room already has, it changes nothing
    and sends nothing; with a name that is not a string (a number, a
    boolean, an array) it throws a [TypeError] and changes nothing; and when
    it creates the room, every connected socket is sent the same room list,
    which has every room once, the new one among them, in ascending order of
    the names. *)
Theorem X6_newRoom_outcomes :
  forall st, reachable st ->
  forall now id u,
    userOf id st = Some u ->
    (forall name,
        name = JAtom AUndefined \/ name = JAtom ANull \/
        (exists s, name = JStr s /\ (trim s = "" \/ In s (map Room.name (Rooms st)))) ->
        step now (Recv id (newRoom name)) st = (Ok tt, st, [])) /\
    (forall name,
        (exists b, name = JAtom (ABool b)) \/ (exists n, name = JAtom (ANum n)) \/
        (exists l, name = JArr l) ->
        step now (Recv id (newRoom name)) st = (Throw TypeError, st, [])) /\
    (forall s,
        trim s <> "" -> ~ In s (map Room.name (Rooms st)) ->
        let r := step now (Recv id (newRoom (JStr s))) st in
        exists rooms,
          result r = Ok tt /\
          out r = emitAll (roomList rooms) (sockets st) /\
          Sorted byName rooms /\
          Permutation rooms (Rooms (post r)) /\
          In (Room.mk (nextId st) s now (User.username u)) rooms).
Proof.
  intros st R now id u Hu. pose proof (reachable_wf R) as W.
  split; [|split].
  - intros name H.
    rewrite (@step_recv_user now id (newRoom name) st u Hu). cbn [dispatch].
    destruct H as [->|[->|[s [-> H]]]]; try reflexivity.
    unfold on_newRoom, Room_exists, JStr. unfold_m.
    destruct (trim s =? "") eqn:Ht; [reflexivity|].
    destruct H as [H|H]; [apply String.eqb_neq in Ht; contradiction|].
    destruct (existsb (fun r => Room.name r =? s) (Rooms st)) eqn:He; [reflexivity|].
    apply existsb_name_false in He. contradiction.
  - intros name H.
    rewrite (@step_recv_user now id (newRoom name) st u Hu). cbn [dispatch].
    destruct H as [[b ->]|[[n ->]|[l ->]]]; reflexivity.
  - intros s Ht Hn r. subst r.
    rewrite (@step_recv_user now id (newRoom (JStr s)) st u Hu). cbn [dispatch].
    rewrite (@on_newRoom_broadcast now u s st (@userOf_username st id u W Hu) Ht Hn).
    cbn zeta. cbn [result post out fst snd].
    eexists. split; [reflexivity|]. split; [reflexivity|]. split; [|split].
    + apply (sortBy_sorted (fun a b => (Room.name a <=? Room.name b)%string)).
      intros a b. apply String.leb_total.
    + apply sortBy_perm.
    + apply (Permutation_in _ (Permutation_sym (sortBy_perm _ _))).
      simpl. apply in_or_app. right. now left.
Qed.

Lemma X6_newRoom_outcomes_witness :
  reachable (run initial run_general_created) /\
  step 9%N (Recv "s2" (newRoom (JStr "general"))) (run initial run_general_created) =
  (Ok tt, run initial run_general_created, []).
Proof.
  assert (reachable (run initial run_general_created)) as R
    by (exists run_general_created; reflexivity).
  split; [exact R|].
  refine (proj1 (@X6_newRoom_outcomes _ R 9%N "s2" bob eq_refl) (JStr "general") _).
  right. right. exists "general". split; [reflexivity|]. right. vm_compute. tauto.
Defined.

Ltac rooms_tac :=
  frame_tac;
  try (left; reflexivity);
  try (right; left; eexists; split; [reflexivity|split; reflexivity]);
  try (right; right; eexists; reflexivity).

Lemma dispatch_rooms now id u ev st :
  let st' := post (dispatch now id u ev st) in
  Rooms st' = Rooms st \/
  (exists r, Rooms st' = Rooms st ++ [r] /\ Room._id r = nextId st /\
             nextId st' = N.succ (nextId st)) \/
  (exists sel, Rooms st' = removeFirst sel (Rooms st)).
Proof.
  destruct ev; cbn [dispatch]; cbn zeta.
  - unfold on_newRoom, Room_exists, Room_create, Room_find_sort_name, io_emit. rooms_tac.
  - unfold on_deleteRoom, Room_findOne, Room_deleteOne, Room_find_sort_name, io_emit.
    rooms_tac.
  - unfold on_joinRoom, socket_leaveAll, socket_join, Message_find_sort_time, socket_emit.
    rooms_tac.
  - unfold on_chatMessage, Message_create, io_to_emit. rooms_tac.
  - unfold on_deleteMessage, Message_findById, Message_deleteOne, io_to_emit. rooms_tac.
  - unfold on_typing, socket_to_emit. rooms_tac.
  - unfold on_stopTyping, socket_to_emit. rooms_tac.
  - unfold on_seen, Message_findById, Message_save, io_to_emit. rooms_tac.
Qed.

(** A step leaves the rooms, appends one under the next id, or removes one. *)
Lemma step_rooms now i st :
  let st' := post (step now i st) in
  Rooms st' = Rooms st \/
  (exists r, Rooms st' = Rooms st ++ [r] /\ Room._id r = nextId st /\
             nextId st' = N.succ (nextId st)) \/
  (exists sel, Rooms st' = removeFirst sel (Rooms st)).
Proof.
  cbn zeta. destruct i as [u p a|uid|id uid|id ev|id].
  - unfold step, post_signup, try_catch, User_create. rooms_tac.
  - unfold step, get_index, deserializeUser, User_findById, Room_find_sort_name, Room_create.
    rooms_tac.
  - unfold step, on_connection, socket_disconnect, User_findById, setUser,
      Room_find_sort_name, socket_emit.
    rooms_tac.
  - destruct (userOf id st) as [u|] eqn:Hu.
    + rewrite (@step_recv_user now id ev st u Hu). apply dispatch_rooms.
    + rewrite (@step_recv_dropped now id ev st Hu). now left.
  - unfold step, socket_disconnect. unfold_m. now left.
Qed.

Lemma step_roomsOk now i st : roomsOk st -> roomsOk (post (step now i st)).
Proof.
  unfold roomsOk. intros [Hi Hf].
  destruct (step_users now i st) as [_ Hle].
  destruct (step_rooms now i st) as [E|[[r [E [Hr Hs]]]|[sel E]]]; rewrite E.
  - split; [assumption|]. revert Hf. apply Forall_impl. intros x H. lia.
  - rewrite map_app. simpl. split.
    + apply NoDup_snoc; [assumption|]. intros I.
      apply in_map_iff in I. destruct I as [x [Ex I]].
      rewrite Forall_forall in Hf. apply Hf in I. lia.
    + apply Forall_snoc; [|lia].
      revert Hf. apply Forall_impl. intros x H. lia.
  - split; [now apply removeFirst_NoDup_map|].
    apply removeFirst_Forall. revert Hf. apply Forall_impl. intros x H. lia.
Qed.

Lemma reachable_roomsOk st : reachable st -> roomsOk st.
Proof.
  intros [tr ->].
  assert (roomsOk initial) as H0 by (split; constructor).
  revert H0. generalize initial.
  induction tr as [|[now i] tr IH]; intros st H; simpl; [assumption|].
  apply IH. now apply step_roomsOk.
Qed.

Lemma NoDup_map_inj {A B} (f : A -> B) (l : list A) (x y : A) :
  NoDup (map f l) -> In x l -> In y l -> f x = f y -> x = y.
Proof.
  induction l as [|a l IH]; simpl; intros Hn Hx Hy E; [contradiction|].
  inversion Hn as [|? ? Ha Hl]; subst.
  destruct Hx as [->|Hx], Hy as [->|Hy]; try reflexivity.
  - elim Ha. rewrite E. now apply in_map.
  - elim Ha. rewrite <- E. now apply in_map.
  - now apply IH.
Qed.

Lemma removeFirst_In {A} (p : A -> bool) (l : list A) (x : A) :
  In x l -> p x = false -> In x (removeFirst p l).
Proof.
  induction l as [|a l IH]; simpl; intros Hx Hp; [contradiction|].
  destruct (p a) eqn:E.
  - destruct Hx as [->|Hx]; [congruence|assumption].
  - destruct Hx as [->|Hx]; [now left|right; now apply IH].
Qed.

Lemma removeFirst_gone {A B} (key : A -> B) (p : A -> bool) (l : list A) (x y : A) :
  NoDup (map key l) -> In x l -> p x = true ->
  (forall z, In z l -> p z = true -> key z = key x) ->
  In y (removeFirst p l) -> key y <> key x.
Proof.
  induction l as [|a l IH]; simpl; intros Hn Hx Hp Hk Hy; [contradiction|].
  inversion Hn as [|? ? Ha Hl]; subst.
  destruct (p a) eqn:E.
  - assert (key a = key x) as Eax by (apply Hk; [now left|assumption]).
    intros Eyx. apply Ha. rewrite Eax, <- Eyx. now apply in_map.
  - destruct Hx as [->|Hx]; [congruence|].
    destruct Hy as [<-|Hy].
    + intros Eax. apply Ha. rewrite Eax. now apply in_map.
    + apply IH; auto.
Qed.

Lemma find_by_name st s room :
  NoDup (map Room.name (Rooms st)) -> In room (Rooms st) -> Room.name room = s ->
  find (fun r => matchString (JStr s) (Room.name r)) (Rooms st) = Some room.
Proof.
  intros Hn Hin Hs.
  destruct (find (fun r => matchString (JStr s) (Room.name r)) (Rooms st)) as [r|] eqn:Hf.
  - apply find_some in Hf. destruct Hf as [Hr E].
    unfold matchString, JStr, castEq in E. simpl in E. apply String.eqb_eq in E.
    f_equal. apply (NoDup_map_inj Room.name (Rooms st)); auto. congruence.
  - apply (find_none _ _ Hf) in Hin.
    unfold matchString, JStr, castEq in Hin. simpl in Hin.
    rewrite <- Hs, String.eqb_refl in Hin. discriminate.
Qed.

(** X7: a [deleteRoom] by name is for the creator alone.  When no room has
    the name, or the room of that name was created by another user, nothing
    changes and nothing is sent.  When the requester created it, the room is
    removed and no room of that name is left, every other room stays, and
    every connected socket is sent the remaining rooms, each once, in
    ascending order of the names. *)
Theorem X7_deleteRoom_by_creator_only :
  forall st, reachable st ->
  forall now id u s,
    userOf id st = Some u ->
    let r := step now (Recv id (deleteRoom (JStr s))) st in
    ((forall room, In room (Rooms st) -> Room.name room = s ->
                   Room.createdBy room <> User.username u) ->
     r = (Ok tt, st, [])) /\
    (forall room,
        In room (Rooms st) -> Room.name room = s ->
        Room.createdBy room = User.username u ->
        result r = Ok tt /\
        ~ In s (map Room.name (Rooms (post r))) /\
        (forall x, In x (Rooms st) -> Room.name x <> s -> In x (Rooms (post r))) /\
        (forall x, In x (Rooms (post r)) -> In x (Rooms st)) /\
        exists rooms,
          out r = emitAll (roomList rooms) (sockets st) /\
          Sorted byName rooms /\ Permutation rooms (Rooms (post r))).
Proof.
  intros st R now id u s Hu r. subst r.
  pose proof (reachable_wf R) as W. pose proof (reachable_roomsOk R) as [Hids _].
  assert (NoDup (map Room.name (Rooms st))) as Hnames by apply W.
  rewrite (@step_recv_user now id (deleteRoom (JStr s)) st u Hu). cbn [dispatch].
  split.
  - intros Hnot.
    unfold on_deleteRoom, Room_findOne. unfold_m.
    destruct (find _ (Rooms st)) as [room|] eqn:Hf; [|reflexivity].
    apply find_some in Hf. destruct Hf as [Hin E].
    unfold matchString, JStr, castEq in E. simpl in E. apply String.eqb_eq in E.
    specialize (Hnot room Hin (eq_sym E)). apply String.eqb_neq in Hnot.
    now rewrite Hnot.
  - intros room Hin Hs Hc.
    pose proof (@find_by_name st s room Hnames Hin Hs) as Hf.
    unfold on_deleteRoom, Room_findOne, Room_deleteOne, Room_find_sort_name, io_emit.
    unfold_m. rewrite Hf. apply String.eqb_eq in Hc. rewrite Hc. unfold_m.
    set (sel := fun x => (Room._id x =? Room._id room)%N).
    split; [reflexivity|]. split; [|split; [|split]].
    + intros I. apply in_map_iff in I. destruct I as [y [Ey Iy]].
      assert (In y (Rooms st)) as Iy' by now apply (removeFirst_incl sel).
      assert (y = room) as -> by
        (apply (NoDup_map_inj Room.name (Rooms st)); auto; congruence).
      assert (Room._id room <> Room._id room) as Hcontra; [|now elim Hcontra].
      apply (@removeFirst_gone _ _ Room._id sel (Rooms st) room room Hids Hin).
      * unfold sel. apply N.eqb_refl.
      * intros z _ Hz. unfold sel in Hz. now apply N.eqb_eq.
      * exact Iy.
    + intros x Hx Hne. apply removeFirst_In; [assumption|].
      unfold sel. apply N.eqb_neq. intros Eid.
      apply Hne. rewrite <- Hs. f_equal.
      apply (NoDup_map_inj Room._id (Rooms st)); auto.
    + intros x. apply (removeFirst_incl sel).
    + eexists. split; [reflexivity|]. split.
      * apply (sortBy_sorted (fun a b => (Room.name a <=? Room.name b)%string)).
        intros a b. apply String.leb_total.
      * apply sortBy_perm.
Qed.

Lemma X7_deleteRoom_by_creator_only_witness :
  reachable (run initial run_general_created) /\
  userOf "s2" (run initial run_general_created) = Some bob /\
  step 9%N (Recv "s2" (deleteRoom (JStr "general"))) (run initial run_general_created) =
  (Ok tt, run initial run_general_created, []).
Proof.
  assert (reachable (run initial run_general_created)) as R
    by (exists run_general_created; reflexivity).
  split; [exact R|]. split; [reflexivity|].
  refine (proj1 (@X7_deleteRoom_by_creator_only _ R 9%N "s2" bob "general" eq_refl) _).
  vm_compute. intros room [<-|[]] _. discriminate.
Defined.

(** ** Deleting messages; what stays of a message *)

Lemma on_deleteMessage_by_author u oid m st :
  find (byId oid) (Messages st) = Some m ->
  Message.user m = User.username u ->
  on_deleteMessage u (IdOf oid) st =
  (Ok tt, setMessages st (removeFirst (byId oid) (Messages st)),
   emitAll (messageDeleted (IdOf oid)) (recipients [AStr (Message.room m)] None st)).
Proof.
  intros Hf Hu. unfold on_deleteMessage, Message_findById, Message_deleteOne, io_to_emit.
  unfold_m. unfold byId in Hf. rewrite Hf.
  apply String.eqb_eq in Hu. rewrite Hu. reflexivity.
Qed.

(** X8: a [deleteMessage] by the author of a message of the log removes
    that message and nothing else: the messages left are those of the log
    with another id, the rest of the state is untouched, and the id is sent
    as [messageDeleted] to the members of the room of the message. *)
Theorem X8_deleteMessage_by_author :
  forall st, reachable st ->
  forall now id u oid m,
    userOf id st = Some u ->
    find (byId oid) (Messages st) = Some m ->
    Message.user m = User.username u ->
    let r := step now (Recv id (deleteMessage (IdOf oid))) st in
    result r = Ok tt /\
    post r = setMessages st (Messages (post r)) /\
    (forall x, In x (Messages (post r)) <-> In x (Messages st) /\ Message._id x <> oid) /\
    out r = emitAll (messageDeleted (IdOf oid)) (recipients [AStr (Message.room m)] None st).
Proof.
  intros st R now id u oid m Hu Hf Ha r. subst r.
  pose proof (reachable_wf R) as W.
  assert (NoDup (map Message._id (Messages st))) as Hids by apply W.
  rewrite (@step_recv_user now id (deleteMessage (IdOf oid)) st u Hu). cbn [dispatch].
  rewrite (@on_deleteMessage_by_author u oid m st Hf Ha). cbn [result post out fst snd].
  split; [reflexivity|]. split; [reflexivity|]. split; [|reflexivity].
  apply find_some in Hf. destruct Hf as [Hin Hid]. unfold byId in Hid.
  apply N.eqb_eq in Hid. simpl.
  intros x. split.
  - intros Hx. split; [now apply (removeFirst_incl (byId oid))|].
    rewrite <- Hid.
    apply (@removeFirst_gone _ _ Message._id (byId oid) (Messages st) m x Hids Hin).
    + unfold byId. now apply N.eqb_eq.
    + intros z _ Hz. unfold byId in Hz. apply N.eqb_eq in Hz. congruence.
    + exact Hx.
  - intros [Hx Hne]. apply removeFirst_In; [assumption|].
    unfold byId. now apply N.eqb_neq.
Qed.

Lemma X8_deleteMessage_by_author_witness :
  reachable (run initial run_alice_wrote) /\
  Messages (post (step 8%N (Recv "s1" (deleteMessage (IdOf 2%N))) (run initial run_alice_wrote)))
  = [] /\
  out (step 8%N (Recv "s1" (deleteMessage (IdOf 2%N))) (run initial run_alice_wrote)) =
  emitAll (messageDeleted (IdOf 2%N))
    (recipients [AStr "general"] None (run initial run_alice_wrote)).
Proof.
  assert (reachable (run initial run_alice_wrote)) as R
    by (exists run_alice_wrote; reflexivity).
  split; [exact R|]. split; [reflexivity|].
  exact (proj2 (proj2 (proj2
    (@X8_deleteMessage_by_author _ R 8%N "s1" alice 2%N hi eq_refl eq_refl eq_refl)))).
Defined.

Lemma seenMore_refl m : seenMore m m.
Proof.
  unfold seenMore. repeat split. exists []. now rewrite app_nil_r.
Qed.

Lemma replaceFirst_has {A} (p : A -> bool) (y : A) (l : list A) (x : A) :
  find p l = Some x -> In y (replaceFirst p y l).
Proof.
  induction l as [|a l IH]; simpl; intros Hf; [discriminate|].
  destruct (p a); [now left|right; now apply IH].
Qed.

Lemma replaceFirst_or_first {A} (p : A -> bool) (y : A) (l : list A) (x m : A) :
  find p l = Some x -> In m l -> In m (replaceFirst p y l) \/ m = x.
Proof.
  induction l as [|a l IH]; simpl; intros Hf Hm; [contradiction|].
  destruct (p a) eqn:E.
  - injection Hf as <-. destruct Hm as [->|Hm]; [now right|left; now right].
  - destruct Hm as [->|Hm]; [left; now left|].
    destruct (IH Hf Hm) as [H|H]; [left; now right|now right].
Qed.

Lemma removeFirst_or_first {A} (p : A -> bool) (l : list A) (x m : A) :
  find p l = Some x -> In m l -> In m (removeFirst p l) \/ m = x.
Proof.
  induction l as [|a l IH]; simpl; intros Hf Hm; [contradiction|].
  destruct (p a) eqn:E.
  - injection Hf as <-. destruct Hm as [->|Hm]; [now right|now left].
  - destruct Hm as [->|Hm]; [left; now left|].
    destruct (IH Hf Hm) as [H|H]; [left; now right|now right].
Qed.

(** What an event does to the log: nothing, one message more, one name more
    in the [seenBy] of the message found, or the message found removed for
    its author. *)
Lemma dispatch_messages now id u ev st :
  let ms' := Messages (post (dispatch now id u ev st)) in
  ms' = Messages st \/
  (exists m, ms' = Messages st ++ [m]) \/
  (exists oid m0,
      find (byId oid) (Messages st) = Some m0 /\
      ms' = replaceFirst (byId oid)
              (Message.withSeenBy m0 (Message.seenBy m0 ++ [User.username u]))
              (Messages st)) \/
  (exists oid m0,
      ev = deleteMessage (IdOf oid) /\
      find (byId oid) (Messages st) = Some m0 /\
      Message.user m0 = User.username u /\
      ms' = removeFirst (byId oid) (Messages st)).
Proof.
  cbn zeta. destruct ev; cbn [dispatch].
  - left. apply on_newRoom_messages.
  - left. rewrite on_deleteRoom_post. reflexivity.
  - left. reflexivity.
  - destruct (on_chatMessage_effect now u payload st) as [[E _]|[room [t [m [_ [_ [E _]]]]]]].
    + now left.
    + right. left. now exists m.
  - unfold on_deleteMessage, Message_findById, Message_deleteOne, io_to_emit.
    destruct messageId as [|oid|]; unfold_m; try (now left).
    destruct (find _ (Messages st)) as [m0|] eqn:Hf; unfold_m; [|now left].
    destruct (Message.user m0 =? User.username u) eqn:E; unfold_m; [|now left].
    right. right. right. exists oid, m0.
    split; [reflexivity|]. split; [exact Hf|]. split; [now apply String.eqb_eq|reflexivity].
  - left. now rewrite on_typing_unchanged.
  - left. now rewrite on_stopTyping_unchanged.
  - unfold on_seen, Message_findById, Message_save, io_to_emit.
    destruct payload as [[|oid|]|]; unfold_m; try (now left).
    destruct (find _ (Messages st)) as [m0|] eqn:Hf; unfold_m; [|now left].
    destruct (existsb _ (Message.seenBy m0)) eqn:E; unfold_m; [now left|].
    right. right. left. exists oid, m0. split; [exact Hf|].
    apply find_some in Hf. destruct Hf as [_ Hid]. apply N.eqb_eq in Hid.
    unfold byId. now rewrite Hid.
Qed.

Lemma step_messages_other now i st :
  (forall id ev, i <> Recv id ev) -> Messages (post (step now i st)) = Messages st.
Proof.
  destruct i as [u p a|uid|id uid|id ev|id]; intros Hi.
  - unfold step, post_signup, try_catch, User_create. frame_tac.
  - unfold step, get_index, deserializeUser, User_findById, Room_find_sort_name, Room_create.
    frame_tac.
  - unfold step, on_connection, socket_disconnect, User_findById, setUser,
      Room_find_sort_name, socket_emit.
    frame_tac.
  - now elim (Hi id ev).
  - reflexivity.
Qed.

(** X9: no step edits a message.  Through any step, a message of the log
    either is still there with the same id, room, author, avatar, text and
    time, its [seenBy] at most longer at the end; or the step is a
    [deleteMessage] for its id, from a connection of its author. *)
Theorem X9_messages_are_not_edited :
  forall now i st m,
    In m (Messages st) ->
    (exists m', In m' (Messages (post (step now i st))) /\ seenMore m m') \/
    (exists id u,
        i = Recv id (deleteMessage (IdOf (Message._id m))) /\
        userOf id st = Some u /\
        Message.user m = User.username u).
Proof.
  intros now i st m Hm.
  assert (forall ms, ms = Messages st ->
            exists m', In m' ms /\ seenMore m m') as Hsame.
  { intros ms ->. exists m. split; [assumption|apply seenMore_refl]. }
  destruct i as [u p a|uid|id uid|id ev|id];
    try (left; apply Hsame; apply step_messages_other; intros; discriminate).
  destruct (userOf id st) as [u|] eqn:Hu.
  - rewrite (@step_recv_user now id ev st u Hu).
    destruct (dispatch_messages now id u ev st)
      as [E|[[mn E]|[[oid [m0 [Hf E]]]|[oid [m0 [Hev [Hf [Ha E]]]]]]]].
    + left. now apply Hsame.
    + left. exists m. split; [|apply seenMore_refl].
      rewrite E. apply in_or_app. now left.
    + left. rewrite E.
      destruct (@replaceFirst_or_first _ (byId oid)
                  (Message.withSeenBy m0 (Message.seenBy m0 ++ [User.username u]))
                  (Messages st) m0 m Hf Hm) as [H | ->].
      * exists m. split; [assumption|apply seenMore_refl].
      * eexists. split; [exact (replaceFirst_has (byId oid) _ (Messages st) Hf)|].
        unfold seenMore. simpl. repeat split. now eexists.
    + destruct (@removeFirst_or_first _ (byId oid) (Messages st) m0 m Hf Hm) as [H | ->].
      * left. exists m. split; [now rewrite E|apply seenMore_refl].
      * right. exists id, u. split; [|split; assumption].
        apply find_some in Hf. destruct Hf as [_ Hid]. unfold byId in Hid.
        apply N.eqb_eq in Hid. now rewrite Hev, Hid.
  - left. apply Hsame. now rewrite (@step_recv_dropped now id ev st Hu).
Qed.

Lemma X9_messages_are_not_edited_witness :
  In hi (Messages (run initial run_alice_wrote)) /\
  ((exists m',
       In m' (Messages (post (step 8%N (Recv "s2" (seen (Some (IdOf 2%N))))
                                (run initial run_alice_wrote)))) /\
       seenMore hi m') \/
   (exists id u,
       Recv "s2" (seen (Some (IdOf 2%N))) = Recv id (deleteMessage (IdOf (Message._id hi))) /\
       userOf id (run initial run_alice_wrote) = Some u /\
       Message.user hi = User.username u)).
Proof.
  assert (In hi (Messages (run initial run_alice_wrote))) as I by (vm_compute; tauto).
  split; [exact I|].
  exact (@X9_messages_are_not_edited 8%N (Recv "s2" (seen (Some (IdOf 2%N))))
           (run initial run_alice_wrote) hi I).
Defined.

(** ** Sending, joining and the history *)

Lemma matchString_str s field : matchString (JStr s) field = true <-> field = s.
Proof.
  unfold matchString, JStr, castEq. simpl. rewrite String.eqb_eq.
  split; congruence.
Qed.

(** X10: what is sent to a room is read back by joining it.  After a
    [chatMessage] with a non-empty room name and a text that is not blank, a
    [joinRoom] of that room, by any connection, puts the connection in that
    room alone and answers the caller, and nobody else, with one [history]:
    the messages of the log whose room is that name, no other, in ascending
    order of time, the message just sent among them with its text as sent. *)
Theorem X10_history_round_trip :
  forall st, reachable st ->
  forall now1 now2 id1 id2 u1 u2 s t,
    userOf id1 st = Some u1 ->
    userOf id2 st = Some u2 ->
    s <> "" -> trim t <> "" ->
    let r1 := step now1 (Recv id1 (chatMessage (Some (JStr s, JStr t)))) st in
    let r2 := step now2 (Recv id2 (joinRoom (JStr s))) (post r1) in
    exists h,
      out r2 = [Emit id2 (history h)] /\
      Sorted byTime h /\
      (forall m, In m h <-> In m (Messages (post r1)) /\ Message.room m = s) /\
      In (Message.mk (nextId st) s (User.username u1) (User.avatar u1) t now1 []) h /\
      roomsOf id2 (post r2) = [AStr s].
Proof.
  intros st R now1 now2 id1 id2 u1 u2 s t Hu1 Hu2 Hs Ht r1 r2. subst r2 r1.
  pose proof (reachable_wf R) as W.
  rewrite (@step_recv_user now1 id1 _ st u1 Hu1). cbn [dispatch].
  assert (truthyAtom (AStr s) = true) as Ha.
  { simpl. apply negb_true_iff. now apply String.eqb_neq. }
  destruct (@on_chatMessage_accepts now1 u1 (AStr s) t st
              (@userOf_username st id1 u1 W Hu1) Ha Ht) as [r [Hc E]].
  simpl in Hc. injection Hc as <-.
  unfold JStr in *. rewrite E. cbn zeta. cbn [post fst snd].
  set (m := Message.mk (nextId st) s (User.username u1) (User.avatar u1) t now1 []).
  set (st1 := bumpId (setMessages st (Messages st ++ [m]))).
  assert (userOf id2 st1 = Some u2) as Hu2' by exact Hu2.
  rewrite (@step_recv_user now2 id2 _ st1 u2 Hu2'). cbn [dispatch].
  exists (historyOf (JAtom (AStr s)) (Messages st1)).
  split; [apply on_joinRoom_out|]. split; [apply historyOf_sorted|].
  split; [|split].
  - intros x. rewrite historyOf_In. now rewrite (matchString_str s).
  - apply historyOf_In. split.
    + subst st1. simpl. apply in_or_app. right. now left.
    + apply (matchString_str s). reflexivity.
  - unfold userOf in Hu2'.
    destruct (lookupSocket id2 st1) as [sk|] eqn:Hl; [|discriminate].
    unfold roomsOf. now rewrite (@on_joinRoom_roomsOf id2 (JAtom (AStr s)) st1 sk Hl).
Qed.

Lemma X10_history_round_trip_witness :
  reachable (run initial run_both_joined) /\
  let r1 := step 7%N (Recv "s1" (chatMessage (Some (JStr "general", JStr " hi "))))
              (run initial run_both_joined) in
  exists h,
    out (step 8%N (Recv "s2" (joinRoom (JStr "general"))) (post r1)) =
    [Emit "s2" (history h)] /\
    In hi h.
Proof.
  assert (reachable (run initial run_both_joined)) as R
    by (exists run_both_joined; reflexivity).
  split; [exact R|]. intros r1.
  destruct (@X10_history_round_trip _ R 7%N 8%N "s1" "s2" alice bob "general" " hi "
              eq_refl eq_refl) as [h [H1 [_ [_ [H4 _]]]]].
  - discriminate.
  - vm_compute. discriminate.
  - exists h. split; [exact H1|exact H4].
Defined.

Lemma recipients_one_room a st s :
  In s (recipients [a] None st) <-> In s (sockets st) /\ hasRoom a (srooms s) = true.
Proof.
  unfold recipients. rewrite filter_In. simpl.
  rewrite orb_false_r, andb_true_r. reflexivity.
Qed.

(** X11: an accepted [chatMessage] reaches the members of its room and
    nobody else: the [message] event with the stored document goes to a
    connection exactly when that connection is in the room (the sender like
    any other: it is sent its own message only if it has joined the room),
    and nothing else is sent.  No room record is asked for. *)
Theorem X11_message_reaches_members_only :
  forall st, reachable st ->
  forall now id u a t,
    userOf id st = Some u ->
    truthyAtom a = true -> trim t <> "" ->
    let r := step now (Recv id (chatMessage (Some (JAtom a, JStr t)))) st in
    exists m,
      Messages (post r) = Messages st ++ [m] /\
      forall c e,
        In (Emit c e) (out r) <->
        e = message m /\
        exists s, In s (sockets st) /\ sid s = c /\ hasRoom a (srooms s) = true.
Proof.
  intros st R now id u a t Hu Ha Ht r. subst r.
  pose proof (reachable_wf R) as W.
  rewrite (@step_recv_user now id _ st u Hu). cbn [dispatch].
  destruct (@on_chatMessage_accepts now u a t st (@userOf_username st id u W Hu) Ha Ht)
    as [rm [_ E]].
  rewrite E. cbn zeta. cbn [post out fst snd].
  eexists. split; [reflexivity|].
  intros c e. unfold emitAll. rewrite in_map_iff. split.
  - intros [s [Es Hs]]. injection Es as <- <-.
    apply recipients_one_room in Hs. split; [reflexivity|]. exists s. tauto.
  - intros [-> [s [Hs [<- Hr]]]]. exists s. split; [reflexivity|].
    apply recipients_one_room. tauto.
Qed.

Lemma X11_message_reaches_members_only_witness :
  reachable (run initial run_alice_joined) /\
  let r := step 4%N (Recv "s1" (chatMessage (Some (JStr "random", JStr "anyone?"))))
             (run initial run_alice_joined) in
  exists m,
    Messages (post r) = Messages (run initial run_alice_joined) ++ [m] /\
    ~ In (Emit "s1" (message m)) (out r).
Proof.
  assert (reachable (run initial run_alice_joined)) as R
    by (exists run_alice_joined; reflexivity).
  split; [exact R|]. intros r.
  destruct (@X11_message_reaches_members_only _ R 4%N "s1" alice (AStr "random") "anyone?"
              eq_refl eq_refl) as [m [Hm Ho]].
  - vm_compute. discriminate.
  - exists m. split; [exact Hm|].
    intros I. apply Ho in I. destruct I as [_ [s [Hs [_ Hr]]]].
    vm_compute in Hs. destruct Hs as [<-|[]]. vm_compute in Hr. discriminate.
Defined.

(** ** Whose rooms an input can change *)

Lemma lookup_snoc_other (id x : SocketId) (l : list Socket) (s : Socket) :
  sid s = x -> (x =? id) = false ->
  find (fun k => sid k =? id) (l ++ [s]) = find (fun k => sid k =? id) l.
Proof.
  intros Hs Hx. induction l as [|a l IH]; simpl.
  - now rewrite Hs, Hx.
  - destruct (sid a =? id); [reflexivity|exact IH].
Qed.

Lemma lookup_filter_other (id x : SocketId) (l : list Socket) :
  (x =? id) = false ->
  find (fun k => sid k =? id) (filter (fun k => negb (sid k =? x)) l) =
  find (fun k => sid k =? id) l.
Proof.
  intros Hx. induction l as [|a l IH]; simpl; [reflexivity|].
  destruct (sid a =? x) eqn:E1; simpl.
  - apply String.eqb_eq in E1. rewrite E1, Hx. exact IH.
  - destruct (sid a =? id); [reflexivity|exact IH].
Qed.

Lemma on_connection_lookup id x uid st :
  (x =? id) = false ->
  lookupSocket id (post (on_connection x uid st)) = lookupSocket id st.
Proof.
  intros Hx. unfold lookupSocket, on_connection, socket_disconnect, User_findById, setUser,
    Room_find_sort_name, socket_emit.
  destruct uid as [u0|]; unfold_m.
  - destruct (find _ (Users st)) as [u|]; unfold_m; [|reflexivity].
    rewrite lookup_updSocket by reflexivity.
    rewrite String.eqb_sym in Hx. now rewrite Hx.
  - now apply lookup_filter_other.
Qed.

(** X12: the rooms of a connection are its own affair.  A step that is not
    the connection, the disconnection or a [joinRoom] of a socket leaves that
    socket as it is in the hub, profile and rooms: no other client's event,
    and none of its own other events, moves it in or out of a room. *)
Theorem X12_membership_is_per_socket :
  forall now i st id,
    touches id i = false ->
    lookupSocket id (post (step now i st)) = lookupSocket id st.
Proof.
  intros now i st id Ht.
  destruct i as [u p a|uid|x uid|x ev|x]; simpl in Ht.
  - unfold lookupSocket, step. now rewrite post_signup_sockets.
  - unfold lookupSocket, step. now rewrite get_index_sockets.
  - unfold step. unfold bind at 1, get. simpl.
    destruct (lookupSocket x st) eqn:Hl; [reflexivity|].
    unfold bind at 1, put. simpl.
    match goal with
    | |- context [on_connection x uid ?s] =>
        pose proof (@on_connection_lookup id x uid s Ht) as H;
        destruct (on_connection x uid s) as [[r s'] o]
    end.
    simpl in *. rewrite H. unfold lookupSocket. simpl.
    now apply lookup_snoc_other with x.
  - destruct (userOf x st) as [u|] eqn:Hu.
    + rewrite (@step_recv_user now x ev st u Hu). unfold lookupSocket.
      destruct ev; cbn [dispatch].
      * now rewrite on_newRoom_sockets.
      * now rewrite on_deleteRoom_sockets.
      * rewrite on_joinRoom_sockets. rewrite lookup_updSocket by reflexivity.
        rewrite String.eqb_sym in Ht. now rewrite Ht.
      * now rewrite on_chatMessage_sockets.
      * now rewrite on_deleteMessage_sockets.
      * now rewrite on_typing_unchanged.
      * now rewrite on_stopTyping_unchanged.
      * now rewrite on_seen_sockets.
    + now rewrite (@step_recv_dropped now x ev st Hu).
  - unfold step, socket_disconnect, lookupSocket. unfold_m.
    now apply lookup_filter_other.
Qed.

Lemma X12_membership_is_per_socket_witness :
  touches "s1" (Recv "s2" (joinRoom (JStr "random"))) = false /\
  roomsOf "s1" (post (step 8%N (Recv "s2" (joinRoom (JStr "random")))
                        (run initial run_alice_wrote))) = [AStr "general"].
Proof.
  split; [reflexivity|].
  unfold roomsOf.
  rewrite (@X12_membership_is_per_socket 8%N (Recv "s2" (joinRoom (JStr "random")))
             (run initial run_alice_wrote) "s1" eq_refl).
  reflexivity.
Defined.

(** ** Typing signals, stale ids and missing rooms *)

Lemma on_stopTyping_out id room st :
  truthy room = true ->
  on_stopTyping id room st =
  (Ok tt, st, emitAll stopTyping (recipients (targets room) (Some id) st)).
Proof.
  intros Ht. unfold on_stopTyping, socket_to_emit. rewrite Ht. reflexivity.
Qed.

Lemma find_socket_by_sid (s : Socket) (ss : list Socket) :
  NoDup (map sid ss) -> In s ss -> find (fun k => sid k =? sid s) ss = Some s.
Proof.
  induction ss as [|k ss IH]; simpl; intros Hn HI; [contradiction|].
  inversion Hn as [|? ? Hk Hss]; subst.
  destruct HI as [E|I].
  - subst k. now rewrite String.eqb_refl.
  - destruct (sid k =? sid s) eqn:Heq; [|now apply IH].
    apply String.eqb_eq in Heq. elim Hk. rewrite Heq. now apply in_map.
Qed.

(** X13: [typing] and [stopTyping] with a falsy room (missing, null, false,
    0 or the empty string) do nothing at all.  A [stopTyping] with a truthy
    room changes nothing in the server and sends [stopTyping], and nothing
    else, to the connections that are in the room and not in the room named
    by the sender's id.  So a sender that is still in the room of its own id
    is sent nothing; and a sender that is in the room addressed and has left
    the room of its own id (as [joinRoom] makes it) is sent its own
    [stopTyping]. *)
Theorem X13_stopTyping_scope :
  forall st, reachable st ->
  forall now id u room,
    userOf id st = Some u ->
    (truthy room = false ->
     step now (Recv id (typingEv room)) st = (Ok tt, st, []) /\
     step now (Recv id (stopTypingEv room)) st = (Ok tt, st, [])) /\
    (truthy room = true ->
     let r := step now (Recv id (stopTypingEv room)) st in
     result r = Ok tt /\
     post r = st /\
     (forall c e,
         In (Emit c e) (out r) <->
         e = stopTyping /\
         exists s, In s (sockets st) /\ sid s = c /\
                   inRooms (targets room) s = true /\
                   hasRoom (AStr id) (srooms s) = false) /\
     (hasRoom (AStr id) (roomsOf id st) = true -> forall e, ~ In (Emit id e) (out r)) /\
     (forall a,
         In a (targets room) -> hasRoom a (roomsOf id st) = true ->
         hasRoom (AStr id) (roomsOf id st) = false ->
         In (Emit id stopTyping) (out r))).
Proof.
  intros st R now id u room Hu. pose proof (reachable_wf R) as W. split.
  - intros Hf.
    rewrite (@step_recv_user now id (typingEv room) st u Hu).
    rewrite (@step_recv_user now id (stopTypingEv room) st u Hu). cbn [dispatch].
    unfold on_typing, on_stopTyping. now rewrite Hf.
  - intros Ht r. subst r.
    rewrite (@step_recv_user now id (stopTypingEv room) st u Hu). cbn [dispatch].
    rewrite (@on_stopTyping_out id room st Ht). cbn [result post out fst snd].
    assert (forall c e,
               In (Emit c e) (emitAll stopTyping (recipients (targets room) (Some id) st)) <->
               e = stopTyping /\
               exists s, In s (sockets st) /\ sid s = c /\
                         inRooms (targets room) s = true /\
                         hasRoom (AStr id) (srooms s) = false) as Hiff.
    { intros c e. unfold emitAll. rewrite in_map_iff. split.
      - intros [s [Es Hs]]. injection Es as <- <-.
        apply recipients_except in Hs. split; [reflexivity|]. exists s. tauto.
      - intros [-> [s [Hs [<- Hr]]]]. exists s. split; [reflexivity|].
        apply recipients_except. tauto. }
    unfold userOf, roomsOf in *.
    destruct (lookupSocket id st) as [sk|] eqn:Hl; [|discriminate].
    pose proof (@lookupSocket_Some id st sk Hl) as [Hin Hsid].
    split; [reflexivity|]. split; [reflexivity|]. split; [exact Hiff|]. split.
    + intros Hown e H. apply Hiff in H. destruct H as [_ [s [Hs [Es [_ Hex]]]]].
      assert (s = sk) as ->.
      { assert (lookupSocket id st = Some s) as Hl'.
        { unfold lookupSocket. rewrite <- Es. apply find_socket_by_sid; [apply W|exact Hs]. }
        congruence. }
      congruence.
    + intros a Ha Hr Hex. apply Hiff. split; [reflexivity|].
      exists sk. split; [exact Hin|]. split; [exact Hsid|]. split; [|exact Hex].
      now apply inRooms_member with a.
Qed.

Lemma X13_stopTyping_scope_witness :
  reachable (run initial run_alice_wrote) /\
  userOf "s1" (run initial run_alice_wrote) = Some alice /\
  truthy (JStr "general") = true /\
  In (Emit "s1" stopTyping)
    (out (step 8%N (Recv "s1" (stopTypingEv (JStr "general"))) (run initial run_alice_wrote))).
Proof.
  assert (reachable (run initial run_alice_wrote)) as R
    by (exists run_alice_wrote; reflexivity).
  split; [exact R|]. split; [reflexivity|]. split; [reflexivity|].
  refine (proj2 (proj2 (proj2 (proj2
    (proj2 (@X13_stopTyping_scope _ R 8%N "s1" alice (JStr "general") eq_refl) eq_refl))))
    (AStr "general") _ eq_refl eq_refl).
  now left.
Defined.

Lemma find_after_removeFirst st oid m :
  NoDup (map Message._id (Messages st)) ->
  find (byId oid) (Messages st) = Some m ->
  find (byId oid) (removeFirst (byId oid) (Messages st)) = None.
Proof.
  intros Hids Hf.
  destruct (find (byId oid) (removeFirst (byId oid) (Messages st))) as [x|] eqn:Hx;
    [|reflexivity].
  exfalso. apply find_some in Hx. destruct Hx as [Ix Ex].
  apply find_some in Hf. destruct Hf as [Im Em].
  unfold byId in Ex, Em. apply N.eqb_eq in Ex, Em.
  apply (@removeFirst_gone _ _ Message._id (byId oid) (Messages st) m x Hids Im).
  - unfold byId. now apply N.eqb_eq.
  - intros z _ Hz. unfold byId in Hz. apply N.eqb_eq in Hz. congruence.
  - exact Ix.
  - congruence.
Qed.

(** X14: an id that names no message of the log is ignored: [deleteMessage]
    and [seen] then change nothing and send nothing.  So deleting is final
    and safe to repeat: once its author has deleted a message, a second
    [deleteMessage] and a late [seen] for its id, from any connection, are
    without effect. *)
Theorem X14_stale_ids_are_ignored :
  forall st, reachable st ->
  forall now id u,
    userOf id st = Some u ->
    (forall mid,
        result (Message_findById mid st) = Ok None ->
        step now (Recv id (deleteMessage mid)) st = (Ok tt, st, []) /\
        step now (Recv id (seen (Some mid))) st = (Ok tt, st, [])) /\
    (forall oid m now' id' u',
        find (byId oid) (Messages st) = Some m ->
        Message.user m = User.username u ->
        userOf id' st = Some u' ->
        let st1 := post (step now (Recv id (deleteMessage (IdOf oid))) st) in
        step now' (Recv id' (deleteMessage (IdOf oid))) st1 = (Ok tt, st1, []) /\
        step now' (Recv id' (seen (Some (IdOf oid)))) st1 = (Ok tt, st1, [])).
Proof.
  intros st R now id u Hu.
  assert (forall st0 id0 u0 now0 mid,
            userOf id0 st0 = Some u0 ->
            result (Message_findById mid st0) = Ok None ->
            step now0 (Recv id0 (deleteMessage mid)) st0 = (Ok tt, st0, []) /\
            step now0 (Recv id0 (seen (Some mid))) st0 = (Ok tt, st0, [])) as Hnone.
  { intros st0 id0 u0 now0 mid Hu0 Hf.
    rewrite (@step_recv_user now0 id0 (deleteMessage mid) st0 u0 Hu0).
    rewrite (@step_recv_user now0 id0 (seen (Some mid)) st0 u0 Hu0). cbn [dispatch].
    unfold on_deleteMessage, on_seen, Message_findById in *.
    destruct mid as [|oid|]; unfold_m; [split; reflexivity| |discriminate].
    injection Hf as Hf. rewrite Hf. split; reflexivity. }
  split.
  - intros mid. now apply Hnone with u.
  - intros oid m now' id' u' Hf Ha Hu' st1. subst st1.
    pose proof (reachable_wf R) as W.
    rewrite (@step_recv_user now id (deleteMessage (IdOf oid)) st u Hu). cbn [dispatch].
    rewrite (@on_deleteMessage_by_author u oid m st Hf Ha). cbn [post fst snd].
    apply Hnone with u'; [exact Hu'|].
    unfold Message_findById. unfold_m. f_equal.
    apply (@find_after_removeFirst st oid m); [apply W|exact Hf].
Qed.

Lemma X14_stale_ids_are_ignored_witness :
  reachable (run initial run_alice_wrote) /\
  let st1 := post (step 8%N (Recv "s1" (deleteMessage (IdOf 2%N)))
                     (run initial run_alice_wrote)) in
  step 9%N (Recv "s2" (seen (Some (IdOf 2%N)))) st1 = (Ok tt, st1, []).
Proof.
  assert (reachable (run initial run_alice_wrote)) as R
    by (exists run_alice_wrote; reflexivity).
  split; [exact R|].
  exact (proj2 (proj2 (@X14_stale_ids_are_ignored _ R 8%N "s1" alice eq_refl)
                  2%N hi 9%N "s2" bob eq_refl eq_refl eq_refl)).
Defined.

(** X15: sending and joining never look at the room directory.  With any
    other list of rooms in the store, a [chatMessage] and a [joinRoom] give
    the same result, send the same events and leave the same state, the
    rooms apart: a room that was deleted, or never created, takes messages
    and members like any other. *)
Theorem X15_rooms_are_not_checked :
  forall now id u rooms st,
    (forall payload,
        let r := on_chatMessage now u payload st in
        on_chatMessage now u payload (setRooms st rooms) =
        (result r, setRooms (post r) rooms, out r)) /\
    (forall room,
        let r := on_joinRoom id room st in
        on_joinRoom id room (setRooms st rooms) =
        (result r, setRooms (post r) rooms, out r)).
Proof.
  intros now id u rooms st. split.
  - intros payload. cbn zeta.
    unfold on_chatMessage, Message_create, io_to_emit. frame_tac.
  - intros room. reflexivity.
Qed.
